(** * VoiceHealth JSON validator: a shallow embedding of
      [json_filter/validate_voicehealth_json.c] and the properties of its
      error-reporting contract.

    The C function reads a NUL-terminated text through [json_string], hands it
    to cJSON, inspects three members of the parsed root and, on the first check
    that fails, copies a fixed diagnostic into the caller's buffer with
    [snprintf].  The embedding keeps that shape:

    - memory is one flat byte store shared by the input text and the error
      buffer, so that two pointers may name overlapping bytes;
    - a [cJSON] node is the C struct, with the sibling chain [next]/[prev] of a
      node's children read as a list;
    - [double] is IEEE-754 binary64, carried by [spec_float];
    - [int] and [size_t] values are [Z] and [N].

    The two programs around the validator, validate_cli.c and
    test_validate.c, are embedded over the same store: their standard input
    is a list of bytes, their allocator an oracle, and what they print a
    string per stream. *)

From Stdlib Require Import ZArith NArith List Bool Ascii String Lia QArith.
From Stdlib Require Import Permutation.
From Stdlib Require Import Floats.SpecFloat.
Import ListNotations.

Local Open Scope Z_scope.

(** ** Memory *)

Module Mem.

(** Bytes of the address space, indexed from address [0]. *)
Definition mem := list ascii.

(** A C pointer: [None] is [NULL], [Some a] the address [a]. *)
Definition ptr := option nat.

Definition NUL : ascii := Ascii.zero.

(** The bytes of [bs] that come before its first NUL: what [strlen] and the
    [%s] directive see of a [char *].  A text that runs into the end of the
    store stops there. *)
Fixpoint cstring (bs : list ascii) : string :=
  match bs with
  | [] => EmptyString
  | c :: bs' => if Ascii.eqb c NUL then EmptyString else String c (cstring bs')
  end.

(** The text a [const char *] with address [p] points to. *)
Definition load_cstring (m : mem) (p : nat) : string := cstring (skipn p m).

(** [store m p bs] copies [bs] to the addresses [p], [p+1], ...; the store
    keeps its size, a byte that would fall behind its end is dropped. *)
Fixpoint store (m : mem) (p : nat) (bs : list ascii) : mem :=
  match m with
  | [] => []
  | x :: m' =>
      match p with
      | S p' => x :: store m' p' bs
      | O => match bs with
             | [] => m
             | b :: bs' => b :: store m' O bs'
             end
      end
  end.

(** [snprintf(buf, size, "%s", msg)]: at most [size - 1] bytes of [msg],
    then a NUL; nothing at all when [size] is [0].  The [int] it returns is
    dropped by its only caller. *)
Definition snprintf_s (m : mem) (buf : nat) (size : N) (msg : string) : mem :=
  if (size =? 0)%N then m
  else store m buf (firstn (N.to_nat size - 1) (list_ascii_of_string msg) ++ [NUL]).

End Mem.
Import Mem.

(** ** The cJSON tree *)

Module cJSON.

(** Modelled from the spec: [struct cJSON] of cJSON.h, which is not under
    src/; the spec's JSON value, a node tagged with its variant.  [child]
    holds the head of a chain linked through [next]/[prev]; the chain is the
    list [child].  [valuestring] and [string] (here [string_]) are [char *]:
    [None] is [NULL], [Some s] the text up to the terminator. *)
#[warnings="-register-all"]
Inductive cJSON : Type :=
  Item { type : Z;
         valuestring : option string;
         valueint : Z;
         valuedouble : spec_float;
         string_ : option string;
         child : list cJSON }.

(** Modelled from the spec: the type tags of cJSON.h, which is not under
    src/; one bit for each variant of the spec's JSON value (Boolean has two),
    and two flag bits above the low byte. *)
Definition cJSON_Invalid := 0.
(** Modelled from the spec: type tag of cJSON.h, the Boolean false. *)
Definition cJSON_False := Z.shiftl 1 0.
(** Modelled from the spec: type tag of cJSON.h, the Boolean true. *)
Definition cJSON_True := Z.shiftl 1 1.
(** Modelled from the spec: type tag of cJSON.h, the variant Null. *)
Definition cJSON_NULL := Z.shiftl 1 2.
(** Modelled from the spec: type tag of cJSON.h, the variant Number. *)
Definition cJSON_Number := Z.shiftl 1 3.
(** Modelled from the spec: type tag of cJSON.h, the variant String. *)
Definition cJSON_String := Z.shiftl 1 4.
(** Modelled from the spec: type tag of cJSON.h, the variant Array. *)
Definition cJSON_Array := Z.shiftl 1 5.
(** Modelled from the spec: type tag of cJSON.h, the variant Object. *)
Definition cJSON_Object := Z.shiftl 1 6.
(** Modelled from the spec: type tag of cJSON.h for unparsed text; no
    variant of the spec's JSON value. *)
Definition cJSON_Raw := Z.shiftl 1 7.
(** Modelled from the spec: flag of cJSON.h, outside the low byte the
    variant tests look at. *)
Definition cJSON_IsReference := 256.
(** Modelled from the spec: flag of cJSON.h, outside the low byte the
    variant tests look at. *)
Definition cJSON_StringIsConst := 512.

(** Modelled from the spec: [cJSON_IsArray] of cJSON.c, which is not under
    src/; "its value's variant is Array", [(item->type & 0xFF) == cJSON_Array].
    The [NULL] test of the C predicate is the [option] of the callers. *)
Definition cJSON_IsArray (item : cJSON) : bool :=
  Z.land (type item) 255 =? cJSON_Array.
(** Modelled from the spec: [cJSON_IsObject] of cJSON.c, which is not under
    src/; "the parsed root value's variant is Object". *)
Definition cJSON_IsObject (item : cJSON) : bool :=
  Z.land (type item) 255 =? cJSON_Object.
(** Modelled from the spec: [cJSON_IsNumber] of cJSON.c, which is not under
    src/; "its value's variant is Number". *)
Definition cJSON_IsNumber (item : cJSON) : bool :=
  Z.land (type item) 255 =? cJSON_Number.

(** Modelled from the spec: the loop of [get_object_item] of cJSON.c, which
    is not under src/, with [case_sensitive] set; a key is looked up "by exact
    case-sensitive match".  The chain is walked while the current node has a
    name and [strcmp] tells it from [name], so the first member of that name
    is the one found. *)
Fixpoint get_object_item (current : list cJSON) (name : string) : option cJSON :=
  match current with
  | [] => None
  | c :: rest =>
      match string_ c with
      | None => None
      | Some k => if String.eqb name k then Some c else get_object_item rest name
      end
  end.

(** Modelled from the spec: [cJSON_GetObjectItemCaseSensitive] of cJSON.c,
    which is not under src/; the lookup of a key in the root object. *)
Definition cJSON_GetObjectItemCaseSensitive (object : cJSON) (name : string)
  : option cJSON :=
  get_object_item (child object) name.

End cJSON.
Import cJSON.

(** ** The validator *)

(** binary64 *)
Definition prec := 53.
Definition emax := 1024.

(** An [int] constant converted to [double] for a comparison. *)
Definition double_of_int (n : Z) : spec_float := binary_normalize prec emax n 0 false.

Definition SEVERITY_MIN := 0.
Definition SEVERITY_MAX := 10.

Definition set_error (m : mem) (error_msg : ptr) (error_size : N) (msg : string) : mem :=
  match error_msg with
  | Some buf => if (0 <? error_size)%N then snprintf_s m buf error_size msg else m
  | None => m
  end.

Section Validator.

(** [cJSON_Parse]: [None] is the [NULL] it returns for a text it rejects. *)
Variable cJSON_Parse : string -> option cJSON.

(** The call returns its [int] and the store it leaves.  [cJSON_Delete]
    releases the tree, which lives outside the modelled store. *)
Definition validate_voicehealth_json
    (m : mem) (json_string : ptr) (error_msg : ptr) (error_size : N) : Z * mem :=
  match json_string with
  | None => (0, set_error m error_msg error_size "Input string is null")
  | Some p =>
      match cJSON_Parse (load_cstring m p) with
      | None => (0, set_error m error_msg error_size "Malformed JSON")
      | Some root =>
          if negb (cJSON_IsObject root) then
            (0, set_error m error_msg error_size "Root must be a JSON object")
          else
            let symptoms := cJSON_GetObjectItemCaseSensitive root "symptoms" in
            if match symptoms with None => true | Some it => negb (cJSON_IsArray it) end
            then (0, set_error m error_msg error_size
                       "Missing or invalid 'symptoms' (must be array)")
            else
              match cJSON_GetObjectItemCaseSensitive root "severity" with
              | None => (0, set_error m error_msg error_size
                              "Missing or invalid 'severity' (must be number)")
              | Some severity_item =>
                  if negb (cJSON_IsNumber severity_item) then
                    (0, set_error m error_msg error_size
                          "Missing or invalid 'severity' (must be number)")
                  else
                    let s := valuedouble severity_item in
                    if SFltb s (double_of_int SEVERITY_MIN)
                       || SFltb (double_of_int SEVERITY_MAX) s
                    then (0, set_error m error_msg error_size
                               "Severity must be between 0 and 10")
                    else
                      let potential_triggers :=
                        cJSON_GetObjectItemCaseSensitive root "potential_triggers" in
                      if match potential_triggers with
                         | None => true
                         | Some it => negb (cJSON_IsArray it)
                         end
                      then (0, set_error m error_msg error_size
                                 "Missing or invalid 'potential_triggers' (must be array)")
                      else (1, m)
              end
      end
  end.

End Validator.

(** ** The parser behind [cJSON_Parse] *)

Module Parser.

Local Open Scope N_scope.

(** A byte as an [unsigned char], and back. *)
Definition code (c : ascii) : N := N_of_ascii c.
Definition chr (n : N) : ascii := ascii_of_N n.

(** Modelled from the spec: [CJSON_NESTING_LIMIT] of cJSON.h, which is not
    under src/; how deep arrays and objects may nest in a text the parser
    accepts. *)
Definition CJSON_NESTING_LIMIT : nat := 1000.
(** The bounds of a 32-bit [int]. *)
Definition INT_MAX : Z := 2147483647.
Definition INT_MIN : Z := (-2147483648)%Z.

(** Modelled from the spec: [cJSON_New_Item] of cJSON.c, which is not under
    src/; the spec's JSON value is produced by the generic parser, and a new
    node is the zeroed struct. *)
Definition cJSON_New_Item : cJSON :=
  Item cJSON_Invalid None 0%Z (S754_zero false) None [].

(** Modelled from the spec: the parse buffer of cJSON.c, which is not under
    src/.  The buffer is [content] with [length = strlen + 1], so the
    terminator is its last byte; the model carries the bytes from [offset]
    to the end. *)
Definition parse_buffer := list ascii.

(** Modelled from the spec: the [while] of [buffer_skip_whitespace] of
    cJSON.c, which is not under src/. *)
Fixpoint skip_while_blank (b : parse_buffer) : parse_buffer :=
  match b with
  | c :: b' => if code c <=? 32 then skip_while_blank b' else b
  | [] => []
  end.

(** Modelled from the spec: [buffer_skip_whitespace] of cJSON.c, which is
    not under src/.  Bytes up to 32 are skipped, the terminator among them;
    having run off the end, the offset steps back onto the terminator. *)
Definition buffer_skip_whitespace (b : parse_buffer) : parse_buffer :=
  match skip_while_blank b with
  | [] => [NUL]
  | r => r
  end.

(** Modelled from the spec: [skip_utf8_bom] of cJSON.c, which is not under
    src/; it needs index 4 to be readable. *)
Definition skip_utf8_bom (b : parse_buffer) : parse_buffer :=
  match b with
  | c1 :: c2 :: c3 :: c4 :: c5 :: rest =>
      if (code c1 =? 239) && (code c2 =? 187) && (code c3 =? 191)
      then c4 :: c5 :: rest else b
  | _ => b
  end.

(** Modelled from the spec: the test of [parse_value] of cJSON.c, which is
    not under src/, for one of the literals of the variants Null and Boolean,
    [can_read(buffer, n) && strncmp(at_offset, lit, n) == 0]; it returns the
    buffer behind the literal. *)
Fixpoint read_literal (lit : string) (b : parse_buffer) : option parse_buffer :=
  match lit with
  | EmptyString => Some b
  | String c lit' =>
      match b with
      | c' :: b' => if Ascii.eqb c c' then read_literal lit' b' else None
      | [] => None
      end
  end.

(** *** Numbers *)

(** A decimal digit. *)
Definition is_digit (c : ascii) : bool := (48 <=? code c) && (code c <=? 57).

(** Modelled from the spec: the [switch] of [parse_number] of cJSON.c, which
    is not under src/; the bytes it copies for [strtod] are digits, signs,
    [e], [E] and the point. *)
Definition is_number_char (c : ascii) : bool :=
  is_digit c || (code c =? 43) || (code c =? 45) || (code c =? 101)
  || (code c =? 69) || (code c =? 46).

(** Modelled from the spec: the copy loop of [parse_number] of cJSON.c, which
    is not under src/; the text handed to [strtod]. *)
Fixpoint number_c_string (b : parse_buffer) : list ascii :=
  match b with
  | c :: b' => if is_number_char c then c :: number_c_string b' else []
  | [] => []
  end.

(** Modelled from the spec: a run of decimal digits as [strtod] of the C
    library reads it; its value appended to [acc], how many there were, and
    what follows. *)
Fixpoint read_digits (s : list ascii) (acc : Z) (count : nat) : Z * nat * list ascii :=
  match s with
  | c :: s' =>
      if is_digit c
      then read_digits s' (10 * acc + Z.of_N (code c - 48))%Z (S count)
      else (acc, count, s)
  | [] => (acc, count, s)
  end.

(** Modelled from the spec: the rounding of [strtod] of the C library, the
    severity being read "as a floating-point number"; the binary64 nearest to
    [(-1)^neg * M * 10^E] (ties to even), an exact integer rounded once or one
    correctly rounded quotient. *)
Definition round_decimal (neg : bool) (M : Z) (E : Z) : spec_float :=
  match M with
  | Z0 => S754_zero neg
  | Zpos p =>
      if (0 <=? E)%Z
      then binary_normalize prec emax ((if neg then Zneg p else Zpos p) * 10 ^ E)%Z 0 neg
      else SFdiv prec emax (S754_finite neg p 0)
                 (S754_finite false (Z.to_pos (10 ^ (- E))) 0)
  | Zneg _ => S754_nan
  end.

(** Modelled from the spec: [strtod] of the C library on the bytes
    [parse_number] hands it (no blanks, no letters but [e] and [E]); the
    spec reads the severity as a floating-point number.  An optional sign,
    digits with an optional point and at least one digit, and an exponent
    that counts only when it has a digit.  The result is the value and the
    number of bytes converted, [None] when nothing was. *)
Definition strtod (s : list ascii) : option (spec_float * nat) :=
  let '(neg, s1, n0) :=
    match s with
    | c :: s' => if code c =? 45 then (true, s', 1%nat)
                 else if code c =? 43 then (false, s', 1%nat)
                 else (false, s, 0%nat)
    | [] => (false, s, 0%nat)
    end in
  let '(mi, di, s2) := read_digits s1 0%Z 0%nat in
  let '(mf, df, s3, n1) :=
    match s2 with
    | c :: s2' =>
        if code c =? 46
        then let '(m, d, r) := read_digits s2' mi 0%nat in (m, d, r, 1%nat)
        else (mi, 0%nat, s2, 0%nat)
    | [] => (mi, 0%nat, s2, 0%nat)
    end in
  match (di + df)%nat with
  | O => None
  | _ =>
      let '(ex, n2) :=
        match s3 with
        | c :: s3' =>
            if (code c =? 101) || (code c =? 69) then
              let '(eneg, s4, ns) :=
                match s3' with
                | c' :: s4' => if code c' =? 45 then (true, s4', 1%nat)
                               else if code c' =? 43 then (false, s4', 1%nat)
                               else (false, s3', 0%nat)
                | [] => (false, s3', 0%nat)
                end in
              let '(e, de, _) := read_digits s4 0%Z 0%nat in
              match de with
              | O => (0%Z, 0%nat)
              | _ => (if eneg then (- e)%Z else e, (1 + ns + de)%nat)
              end
            else (0%Z, 0%nat)
        | [] => (0%Z, 0%nat)
        end in
      Some (round_decimal neg mf (ex - Z.of_nat df),
            (n0 + di + n1 + df + n2)%nat)
  end.

(** Modelled from the spec: the cast [(int)number] of [parse_number] of
    cJSON.c, which is not under src/; truncation toward zero. *)
Definition int_of_double (x : spec_float) : Z :=
  match x with
  | S754_finite s m e =>
      let a := match e with
               | Zneg k => Z.shiftr (Zpos m) (Zpos k)
               | _ => Z.shiftl (Zpos m) e
               end in
      if s then (- a)%Z else a
  | _ => 0%Z
  end.

(** Modelled from the spec: [parse_number] of cJSON.c, which is not under
    src/; a JSON number becomes a [Number] node whose [valuedouble] is what
    [strtod] reads, [valueint] saturating at the [int] bounds. *)
Definition parse_number (item : cJSON) (b : parse_buffer)
  : option (cJSON * parse_buffer) :=
  match strtod (number_c_string b) with
  | None => None
  | Some (number, after_end) =>
      let vi := if SFleb (double_of_int INT_MAX) number then INT_MAX
                else if SFleb number (double_of_int INT_MIN) then INT_MIN
                else int_of_double number in
      Some (Item cJSON_Number (valuestring item) vi number (string_ item) (child item),
            skipn after_end b)
  end.

(** *** Strings *)

(** Modelled from the spec: one hexadecimal digit of [parse_hex4] of
    cJSON.c, which is not under src/; [None] is its "invalid". *)
Definition hex_digit (c : ascii) : option N :=
  let n := code c in
  if (48 <=? n) && (n <=? 57) then Some (n - 48)
  else if (65 <=? n) && (n <=? 70) then Some (10 + n - 65)
  else if (97 <=? n) && (n <=? 102) then Some (10 + n - 97)
  else None.

(** Modelled from the spec: [parse_hex4] of cJSON.c, which is not under
    src/; four hexadecimal digits, and [0] as soon as one is not. *)
Definition parse_hex4 (c0 c1 c2 c3 : ascii) : N :=
  match hex_digit c0, hex_digit c1, hex_digit c2, hex_digit c3 with
  | Some h0, Some h1, Some h2, Some h3 =>
      N.shiftl (N.shiftl (N.shiftl h0 4 + h1) 4 + h2) 4 + h3
  | _, _, _, _ => 0
  end.

(** Modelled from the spec: the encoding loop of [utf16_literal_to_utf8] of
    cJSON.c, which is not under src/; the UTF-8 bytes of a code point. *)
Definition utf8_encode (codepoint : N) : option (list ascii) :=
  let cont (n : N) := chr (N.land (N.lor n 128) 191) in
  if codepoint <? 128 then Some [chr (N.land codepoint 127)]
  else if codepoint <? 2048 then
    Some [chr (N.land (N.lor (N.shiftr codepoint 6) 192) 255); cont codepoint]
  else if codepoint <? 65536 then
    Some [chr (N.land (N.lor (N.shiftr codepoint 12) 224) 255);
          cont (N.shiftr codepoint 6); cont codepoint]
  else if codepoint <=? 1114111 then
    Some [chr (N.land (N.lor (N.shiftr codepoint 18) 240) 255);
          cont (N.shiftr codepoint 12); cont (N.shiftr codepoint 6); cont codepoint]
  else None.

(** Modelled from the spec: [utf16_literal_to_utf8] of cJSON.c, which is
    not under src/.  [input] starts at the backslash of a [\uXXXX] and ends
    where the literal ends; the result is the bytes written and the length
    of the sequence read, [None] for its failure. *)
Definition utf16_literal_to_utf8 (input : list ascii) : option (list ascii * nat) :=
  match input with
  | _ :: _ :: c0 :: c1 :: c2 :: c3 :: rest =>
      let first_code := parse_hex4 c0 c1 c2 c3 in
      if (56320 <=? first_code) && (first_code <=? 57343) then None
      else if (55296 <=? first_code) && (first_code <=? 56319) then
        match rest with
        | b :: u :: d0 :: d1 :: d2 :: d3 :: _ =>
            if negb ((code b =? 92) && (code u =? 117)) then None
            else
              let second_code := parse_hex4 d0 d1 d2 d3 in
              if (second_code <? 56320) || (57343 <? second_code) then None
              else
                let codepoint :=
                  65536 + N.lor (N.shiftl (N.land first_code 1023) 10)
                                (N.land second_code 1023) in
                match utf8_encode codepoint with
                | Some out => Some (out, 12%nat)
                | None => None
                end
        | _ => None
        end
      else
        match utf8_encode first_code with
        | Some out => Some (out, 6%nat)
        | None => None
        end
  | _ => None
  end.

(** Modelled from the spec: the first loop of [parse_string] of cJSON.c,
    which is not under src/; from behind the opening quote, find the closing
    one, a backslash hiding the byte after it.  Returns the bytes in between
    and the buffer behind the closing quote. *)
Fixpoint string_end (b : parse_buffer) : option (list ascii * parse_buffer) :=
  match b with
  | [] => None
  | c :: b' =>
      if code c =? 34 then Some ([], b')
      else if code c =? 92 then
        match b' with
        | [] => None
        | c' :: b'' =>
            match string_end b'' with
            | Some (body, rest) => Some (c :: c' :: body, rest)
            | None => None
            end
        end
      else
        match string_end b' with
        | Some (body, rest) => Some (c :: body, rest)
        | None => None
        end
  end.

(** Modelled from the spec: the second loop of [parse_string] of cJSON.c,
    which is not under src/; copy the literal, resolving the escape
    sequences.  Every turn of the loop reads at least one byte, which [fuel]
    counts. *)
Fixpoint unescape (fuel : nat) (input : list ascii) : option (list ascii) :=
  match fuel with
  | O => match input with [] => Some [] | _ => None end
  | S fuel' =>
      match input with
      | [] => Some []
      | c :: input' =>
          if negb (code c =? 92) then
            option_map (cons c) (unescape fuel' input')
          else
            match input' with
            | [] => None
            | e :: input'' =>
                let simple (o : N) := option_map (cons (chr o)) (unescape fuel' input'') in
                let n := code e in
                if n =? 98 then simple 8
                else if n =? 102 then simple 12
                else if n =? 110 then simple 10
                else if n =? 114 then simple 13
                else if n =? 116 then simple 9
                else if (n =? 34) || (n =? 92) || (n =? 47) then simple n
                else if n =? 117 then
                  match utf16_literal_to_utf8 input with
                  | Some (out, sequence_length) =>
                      option_map (app out) (unescape fuel' (skipn sequence_length input))
                  | None => None
                  end
                else None
            end
      end
  end.

(** Modelled from the spec: [parse_string] of cJSON.c, which is not under
    src/; a JSON string literal becomes a [String] node.  The output is a
    [char *], read up to its terminator. *)
Definition parse_string (item : cJSON) (b : parse_buffer)
  : option (cJSON * parse_buffer) :=
  match b with
  | q :: b' =>
      if negb (code q =? 34) then None
      else
        match string_end b' with
        | None => None
        | Some (body, rest) =>
            match unescape (List.length body) body with
            | None => None
            | Some output =>
                Some (Item cJSON_String (Some (cstring output)) (valueint item)
                           (valuedouble item) (string_ item) (child item),
                      rest)
            end
        end
  | [] => None
  end.

(** *** Arrays, objects, values *)

Section Containers.

(** [parse_value] one nesting level further down. *)
Variable parse_value : cJSON -> parse_buffer -> option (cJSON * parse_buffer).

(** Modelled from the spec: the [do ... while] of [parse_array] of cJSON.c,
    which is not under src/, entered behind the bracket or the comma.  Each
    turn reads at least that byte, which [fuel] counts. *)
Fixpoint array_items (fuel : nat) (b : parse_buffer) (items : list cJSON)
  : option (list cJSON * parse_buffer) :=
  match fuel with
  | O => None
  | S fuel' =>
      match parse_value cJSON_New_Item (buffer_skip_whitespace b) with
      | None => None
      | Some (new_item, b1) =>
          match buffer_skip_whitespace b1 with
          | c :: b2 =>
              if code c =? 44 then array_items fuel' b2 (items ++ [new_item])
              else Some (items ++ [new_item], c :: b2)
          | [] => Some (items ++ [new_item], [])
          end
      end
  end.

(** Modelled from the spec: [parse_array] of cJSON.c, which is not under
    src/; a JSON array becomes an [Array] node over its elements. *)
Definition parse_array (item : cJSON) (b : parse_buffer)
  : option (cJSON * parse_buffer) :=
  let done (items : list cJSON) (rest : parse_buffer) :=
    Some (Item cJSON_Array (valuestring item) (valueint item) (valuedouble item)
               (string_ item) items, rest) in
  match b with
  | o :: b0 =>
      if negb (code o =? 91) then None
      else
        match buffer_skip_whitespace b0 with
        | [] => None
        | c :: b1 =>
            if code c =? 93 then done [] b1
            else
              match array_items (S (List.length b0)) (c :: b1) [] with
              | Some (items, c' :: rest) =>
                  if code c' =? 93 then done items rest else None
              | _ => None
              end
        end
  | [] => None
  end.

(** Modelled from the spec: the [do ... while] of [parse_object] of cJSON.c,
    which is not under src/; a name, a colon, a value, entered behind the
    brace or the comma. *)
Fixpoint object_items (fuel : nat) (b : parse_buffer) (items : list cJSON)
  : option (list cJSON * parse_buffer) :=
  match fuel with
  | O => None
  | S fuel' =>
      match b with
      | [] => None
      | _ =>
          match parse_string cJSON_New_Item (buffer_skip_whitespace b) with
          | None => None
          | Some (named, b1) =>
              let current_item :=
                Item (type named) None (valueint named) (valuedouble named)
                     (valuestring named) (child named) in
              match buffer_skip_whitespace b1 with
              | colon :: b2 =>
                  if negb (code colon =? 58) then None
                  else
                    match parse_value current_item (buffer_skip_whitespace b2) with
                    | None => None
                    | Some (new_item, b3) =>
                        match buffer_skip_whitespace b3 with
                        | c :: b4 =>
                            if code c =? 44
                            then object_items fuel' b4 (items ++ [new_item])
                            else Some (items ++ [new_item], c :: b4)
                        | [] => Some (items ++ [new_item], [])
                        end
                    end
              | [] => None
              end
          end
      end
  end.

(** Modelled from the spec: [parse_object] of cJSON.c, which is not under
    src/; a JSON object becomes an [Object] node over its members, each
    carrying its name in [string]. *)
Definition parse_object (item : cJSON) (b : parse_buffer)
  : option (cJSON * parse_buffer) :=
  let done (items : list cJSON) (rest : parse_buffer) :=
    Some (Item cJSON_Object (valuestring item) (valueint item) (valuedouble item)
               (string_ item) items, rest) in
  match b with
  | o :: b0 =>
      if negb (code o =? 123) then None
      else
        match buffer_skip_whitespace b0 with
        | [] => None
        | c :: b1 =>
            if code c =? 125 then done [] b1
            else
              match object_items (S (List.length b0)) (c :: b1) [] with
              | Some (items, c' :: rest) =>
                  if code c' =? 125 then done items rest else None
              | _ => None
              end
        end
  | [] => None
  end.

End Containers.

(** [item->type = t; item->valueint = vi]. *)
Definition with_type (item : cJSON) (t : Z) (vi : Z) : cJSON :=
  Item t (valuestring item) vi (valuedouble item) (string_ item) (child item).

(** Modelled from the spec: [parse_value] of cJSON.c, which is not under
    src/; the spec's JSON value with its variants Null, Boolean, Number,
    String, Array, Object.  [limit] is what is left of
    [CJSON_NESTING_LIMIT]: an array or object needs one level. *)
Fixpoint parse_value (limit : nat) (item : cJSON) (b : parse_buffer)
  : option (cJSON * parse_buffer) :=
  match read_literal "null" b with
  | Some rest => Some (with_type item cJSON_NULL (valueint item), rest)
  | None =>
  match read_literal "false" b with
  | Some rest => Some (with_type item cJSON_False (valueint item), rest)
  | None =>
  match read_literal "true" b with
  | Some rest => Some (with_type item cJSON_True 1%Z, rest)
  | None =>
  match b with
  | [] => None
  | c :: _ =>
      let n := code c in
      if n =? 34 then parse_string item b
      else if (n =? 45) || is_digit c then parse_number item b
      else if n =? 91 then
        match limit with
        | O => None
        | S limit' => parse_array (parse_value limit') item b
        end
      else if n =? 123 then
        match limit with
        | O => None
        | S limit' => parse_object (parse_value limit') item b
        end
      else None
  end end end end.

(** Modelled from the spec: [cJSON_Parse] of cJSON.c, which is not under
    src/; the text is parsed as one JSON value, [None] standing for the
    [NULL] of a malformed text.  What follows the value is not looked at. *)
Definition cJSON_Parse (value : string) : option cJSON :=
  let buffer := (list_ascii_of_string value ++ [NUL])%list in
  match parse_value CJSON_NESTING_LIMIT cJSON_New_Item
          (buffer_skip_whitespace (skip_utf8_bom buffer)) with
  | Some (item, _) => Some item
  | None => None
  end.

End Parser.

(** ** Vocabulary of the specification *)

(** The seven ways a validation fails, in the order of the checks. *)
Inductive failure : Type :=
| InputNull | MalformedJson | RootNotObject | SymptomsInvalid
| SeverityInvalid | SeverityOutOfRange | TriggersInvalid.

Inductive ValidationResult : Type :=
| Valid
| Invalid (reason : failure).

Definition check_order : list failure :=
  [InputNull; MalformedJson; RootNotObject; SymptomsInvalid;
   SeverityInvalid; SeverityOutOfRange; TriggersInvalid].

(** The diagnostic of each failure, as the specification lists them. *)
Definition diagnostic (f : failure) : string :=
  match f with
  | InputNull => "Input string is null"
  | MalformedJson => "Malformed JSON"
  | RootNotObject => "Root must be a JSON object"
  | SymptomsInvalid => "Missing or invalid 'symptoms' (must be array)"
  | SeverityInvalid => "Missing or invalid 'severity' (must be number)"
  | SeverityOutOfRange => "Severity must be between 0 and 10"
  | TriggersInvalid => "Missing or invalid 'potential_triggers' (must be array)"
  end.

(** What the caller gets for a result: the [int], and the diagnostic sent
    through [set_error] when there is one. *)
Definition report (m : mem) (error_msg : ptr) (error_size : N)
    (r : ValidationResult) : Z * mem :=
  match r with
  | Valid => (1, m)
  | Invalid f => (0, set_error m error_msg error_size (diagnostic f))
  end.

(** The result [r] of a call carries the diagnostic [msg]: the call returns
    0 and sends [msg] through [set_error], and a buffer of the caller that
    lies inside the store reads back as [msg] cut to its capacity less one,
    hence as [msg] itself when that fits. *)
Definition reports (m : mem) (q : ptr) (n : N) (r : Z * mem) (msg : string) : Prop :=
  r = (0, set_error m q n msg)
  /\ forall b, q = Some b -> (0 < n)%N -> (b + N.to_nat n <= List.length m)%nat ->
       load_cstring (snd r) b
       = string_of_list_ascii (firstn (N.to_nat n - 1) (list_ascii_of_string msg))
       /\ ((String.length msg < N.to_nat n)%nat -> load_cstring (snd r) b = msg).

(** The input of a call: [None] for a null pointer, else the text. *)
Definition input_of (m : mem) (json_string : ptr) : option string :=
  option_map (load_cstring m) json_string.

Section Specification.

Variable cJSON_Parse : string -> option cJSON.

Definition parsed (input : option string) : option cJSON :=
  match input with
  | Some text => cJSON_Parse text
  | None => None
  end.

Definition member (input : option string) (name : string) : option cJSON :=
  match parsed input with
  | Some root => cJSON_GetObjectItemCaseSensitive root name
  | None => None
  end.

(** Each step of the specification's algorithm on its own: does this check
    reject the input? *)
Definition fails (f : failure) (input : option string) : bool :=
  match f with
  | InputNull => match input with None => true | Some _ => false end
  | MalformedJson => match parsed input with None => true | Some _ => false end
  | RootNotObject =>
      match parsed input with
      | Some root => negb (cJSON_IsObject root)
      | None => true
      end
  | SymptomsInvalid =>
      match member input "symptoms" with
      | Some it => negb (cJSON_IsArray it)
      | None => true
      end
  | SeverityInvalid =>
      match member input "severity" with
      | Some it => negb (cJSON_IsNumber it)
      | None => true
      end
  | SeverityOutOfRange =>
      match member input "severity" with
      | Some it => SFltb (valuedouble it) (double_of_int 0)
                   || SFltb (double_of_int 10) (valuedouble it)
      | None => true
      end
  | TriggersInvalid =>
      match member input "potential_triggers" with
      | Some it => negb (cJSON_IsArray it)
      | None => true
      end
  end.

(** The specification's algorithm: the checks in their strict order, the
    first one that rejects decides, and none rejecting is [Valid]. *)
Definition spec_validate (input : option string) : ValidationResult :=
  match find (fun f => fails f input) check_order with
  | Some f => Invalid f
  | None => Valid
  end.

End Specification.

(** [root] has no member called [name]. *)
Definition lacks_member (root : cJSON) (name : string) : Prop :=
  forall c, In c (child root) -> string_ c <> Some name.

(** [it] is the member of [root] called [name]: the first one of that name,
    behind members that all carry another name. *)
Definition maps_to (root : cJSON) (name : string) (it : cJSON) : Prop :=
  exists before after,
    child root = before ++ it :: after
    /\ string_ it = Some name
    /\ Forall (fun c => exists k, string_ c = Some k /\ k <> name) before.

(** *** Values of a binary64 *)

Definition is_double (x : spec_float) : Prop := valid_binary prec emax x = true.

Definition is_finite (x : spec_float) : bool :=
  match x with
  | S754_zero _ | S754_finite _ _ _ => true
  | _ => false
  end.

(** [m * 2^e] as a rational. *)
Definition Qmag (m : positive) (e : Z) : Q :=
  match e with
  | Zneg k => Zpos m # (2 ^ k)%positive
  | _ => inject_Z (Zpos m * 2 ^ e)
  end.

(** The rational a finite binary64 stands for: [(-1)^s * m * 2^e]. *)
Definition B2Q (x : spec_float) : Q :=
  match x with
  | S754_finite s m e => if s then Qopp (Qmag m e) else Qmag m e
  | _ => 0%Q
  end.

(** *** Buffers *)

(** The error buffer [error_msg .. error_msg + error_size) leaves the input
    text at [p], terminator included, alone: it is null or empty, or it ends
    before the text, or it starts behind the terminator. *)
Definition separate (m : mem) (p : nat) (error_msg : ptr) (error_size : N) : Prop :=
  match error_msg with
  | None => True
  | Some buf =>
      error_size = 0%N
      \/ (buf + N.to_nat error_size <= p)%nat
      \/ (p + String.length (load_cstring m p) < buf)%nat
  end.

(** A JSON text written with apostrophes for its double quotes. *)
Fixpoint json_text (s : string) : string :=
  match s with
  | EmptyString => EmptyString
  | String c s' =>
      String (if Ascii.eqb c "'" then ascii_of_nat 34 else c) (json_text s')
  end.

(** The setting of test_validate.c: the text and its terminator at address
    [0], followed by an error buffer of [BUF_SIZE] bytes. *)
Definition BUF_SIZE : N := 128.

Definition test_mem (text : string) : mem :=
  list_ascii_of_string text ++ NUL :: repeat "#"%char (N.to_nat BUF_SIZE).

Definition test_err (text : string) : ptr := Some (S (String.length text)).

Definition run_test (text : string) : Z * mem :=
  validate_voicehealth_json Parser.cJSON_Parse
    (test_mem text) (Some 0%nat) (test_err text) BUF_SIZE.

(** The diagnostic a caller reads back from the buffer of [run_test]. *)
Definition test_outcome (text : string) : Z * string :=
  let r := run_test text in
  (fst r, load_cstring (snd r) (S (String.length text))).

(** *** Texts of the tests and of the specification's scenarios *)

Definition valid : string :=
  json_text "{'symptoms':['headache'],'severity':7,'potential_triggers':['caffeine']}".
Definition missing_severity : string :=
  json_text "{'symptoms':[],'potential_triggers':[]}".
Definition wrong_type : string :=
  json_text "{'symptoms':'not-array','severity':5,'potential_triggers':[]}".
Definition bad_json : string := "{ invalid json }".
Definition severity_high : string :=
  json_text "{'symptoms':['pain'],'severity':11,'potential_triggers':[]}".
Definition severity_neg : string :=
  json_text "{'symptoms':[],'severity':-1,'potential_triggers':[]}".

Definition extra_fields : string :=
  json_text "{'symptoms':[],'severity':5,'potential_triggers':[],'extra':true}".
Definition missing_both : string := json_text "{'potential_triggers':[]}".
Definition missing_triggers : string := json_text "{'symptoms':[],'severity':5}".
Definition array_root : string := "[1,2]".
Definition number_root : string := "42".

(** An otherwise conforming object with the given severity. *)
Definition with_severity (number : string) : string :=
  json_text ("{'symptoms':[],'severity':" ++ number ++ ",'potential_triggers':[]}").

(** A caller that hands the buffer of its text over as error buffer too. *)
Definition shared_mem : mem := list_ascii_of_string "[]" ++ NUL :: repeat "#"%char 40.

(** A buffer of eight bytes behind the text, with four more bytes behind it. *)
Definition small_mem (text : string) : mem :=
  list_ascii_of_string text ++ NUL :: repeat "#"%char 8 ++ repeat "!"%char 4.

(** The same text at another address, with its buffer in front of it. *)
Definition moved_mem (text : string) : mem :=
  repeat "#"%char (N.to_nat BUF_SIZE) ++ list_ascii_of_string text ++ [NUL].

(** ** The command-line wrapper, validate_cli.c *)

Module Cli.

(** [size_t] is taken to have 64 bits; its arithmetic wraps around. *)
Definition SIZE_MODULUS : N := 18446744073709551616.
Definition size_add (a b : N) : N := ((a + b) mod SIZE_MODULUS)%N.
Definition size_sub (a b : N) : N := ((a + SIZE_MODULUS - b) mod SIZE_MODULUS)%N.
Definition size_mul (a b : N) : N := ((a * b) mod SIZE_MODULUS)%N.

(** The line feed that ends every line the program prints. *)
Definition LF : string := String (ascii_of_nat 10) EmptyString.

(** What [read_all_stdin] hands back: [NULL], or the buffer and the length
    stored through [out_len]. *)
Inductive read_result : Type :=
| ReadNull
| ReadOk (buf : list ascii) (len : N).

(** What a run of the program leaves behind. *)
Record process_result : Type :=
  Exit { exit_code : Z; stdout : string; stderr : string }.

Section Program.

(** The validator's parser. *)
Variable cJSON_Parse : string -> option cJSON.

(** Whether the [k]-th call of [malloc] or [realloc] of the run succeeds,
    counted from [0]. *)
Variable alloc_ok : nat -> bool.

(** The bytes found in storage nobody has written yet: by offset in the heap
    block, and by index in the array [err]. *)
Variable heap_garbage : nat -> ascii.
Variable stack_garbage : nat -> ascii.

(** [malloc(size)]: a block of [size] bytes of whatever was there. *)
Definition malloc_block (size : N) : list ascii :=
  map heap_garbage (seq 0 (N.to_nat size)).

(** [realloc(buf, size)]: the old bytes as far as they fit, then whatever
    was there. *)
Definition realloc_block (buf : list ascii) (size : N) : list ascii :=
  firstn (N.to_nat size) buf
  ++ map heap_garbage (seq (List.length buf) (N.to_nat size - List.length buf)).

(** The tail of [read_all_stdin] behind its loop. *)
Definition read_finish (allocs : nat) (cap len : N) (buf : list ascii) : read_result :=
  if (cap <? size_add len 1)%N then
    if alloc_ok allocs
    then ReadOk (store (realloc_block buf (size_add len 1)) (N.to_nat len) [NUL]) len
    else ReadNull
  else ReadOk (store buf (N.to_nat len) [NUL]) len.

(** The head of a turn of the loop: with less than 2048 bytes of room the
    buffer is doubled.  The result is the allocation count, [cap], [buf] and
    [space] after it, or [None] when [realloc] fails. *)
Definition grow (allocs : nat) (cap len : N) (buf : list ascii)
  : option (nat * N * list ascii * N) :=
  let space := size_sub cap len in
  if (space <? 2048)%N then
    let new_cap := size_mul cap 2 in
    if alloc_ok allocs
    then Some (S allocs, new_cap, realloc_block buf new_cap, size_sub new_cap len)
    else None
  else Some (allocs, cap, buf, space).

(** The [for (;;)] of [read_all_stdin].  [rest] is what [stdin] still holds;
    [fread] delivers as much of it as there is room for.  A turn that is not
    the last one takes at least one byte off [rest], which [fuel] counts;
    [None] is a loop cut short by [fuel]. *)
Fixpoint read_loop (fuel : nat) (allocs : nat) (cap len : N)
    (buf rest : list ascii) : option read_result :=
  match fuel with
  | O => None
  | S fuel' =>
      match grow allocs cap len buf with
      | None => Some ReadNull
      | Some (allocs', cap', buf', space) =>
          let chunk := firstn (N.to_nat space) rest in
          let n := N.of_nat (List.length chunk) in
          let buf'' := store buf' (N.to_nat len) chunk in
          let len' := size_add len n in
          if (n =? 0)%N then Some (read_finish allocs' cap' len' buf'')
          else read_loop fuel' allocs' cap' len' buf'' (skipn (N.to_nat space) rest)
      end
  end.

Definition read_all_stdin (stdin : list ascii) : option read_result :=
  if alloc_ok 0
  then read_loop (S (List.length stdin)) 1 4096 0 (malloc_block 4096) stdin
  else Some ReadNull.

(** [main]: the exit code and what went to the two output streams.  For the
    call of the validator the heap block [json] and the array [err] are two
    objects of one store, [err] behind [json]; [None] is [read_all_stdin] cut
    short by its fuel. *)
Definition main (stdin : list ascii) : option process_result :=
  match read_all_stdin stdin with
  | None => None
  | Some ReadNull => Some (Exit 2 "" ("Failed to read stdin" ++ LF))
  | Some (ReadOk json len) =>
      if (len =? 0)%N then Some (Exit 2 "" ("No input provided on stdin" ++ LF))
      else
        let err := store (map stack_garbage (seq 0 256)) 0 [NUL] in
        let m := json ++ err in
        let error_msg := List.length json in
        let '(ok, m') :=
          validate_voicehealth_json cJSON_Parse m (Some 0%nat) (Some error_msg) 256 in
        if negb (ok =? 0) then Some (Exit 0 ("1" ++ LF) "")
        else
          Some (Exit 1 ("0" ++ LF)
                  (if Ascii.eqb (nth error_msg m' NUL) NUL then ""
                   else load_cstring m' error_msg ++ LF))
  end.

End Program.

End Cli.

(** *** Vocabulary for the wrapper *)

(** The capacities [read_all_stdin] goes through: 4096 bytes, doubled [j]
    times. *)
Fixpoint capacity (j : nat) : N :=
  match j with
  | O => 4096
  | S j' => 2 * capacity j'
  end.

(** What [read_all_stdin] has done when it returns [r] for the input [stdin],
    in terms of the run's allocations: either allocation [j] is the first to
    fail, and was asked for because the capacities before it were too small;
    or the allocations [0 .. j] succeeded, and the buffer of the least
    sufficient capacity holds the input, a terminator, and room to spare. *)
Definition read_outcome (alloc_ok : nat -> bool) (stdin : list ascii)
    (r : Cli.read_result) : Prop :=
  let L := N.of_nat (List.length stdin) in
  (r = Cli.ReadNull
   /\ exists j, alloc_ok j = false
               /\ (forall i, (i < j)%nat -> alloc_ok i = true /\ (capacity i < L + 2048)%N))
  \/ (exists tail j,
        r = Cli.ReadOk (stdin ++ NUL :: tail) L
        /\ N.of_nat (List.length (stdin ++ NUL :: tail)) = capacity j
        /\ (L + 2048 <= capacity j)%N
        /\ (forall i, (i <= j)%nat -> alloc_ok i = true)
        /\ (forall i, (i < j)%nat -> (capacity i < L + 2048)%N)).

(** What the program prints and returns for a verdict on its input. *)
Definition cli_report (r : ValidationResult) : Cli.process_result :=
  match r with
  | Valid => Cli.Exit 0 ("1" ++ Cli.LF) ""
  | Invalid f => Cli.Exit 1 ("0" ++ Cli.LF) (diagnostic f ++ Cli.LF)
  end.

(** The state of [read_all_stdin] at the head of a turn of its loop, for the
    input [stdin]: [done] has been read and sits at the front of a block of
    capacity [capacity j], above [junk]; [rest] is still to come; the
    allocations so far succeeded, and none could have been spared. *)
Record at_turn (alloc_ok : nat -> bool) (stdin : list ascii)
    (j : nat) (done rest junk : list ascii) : Prop :=
  { turn_input : stdin = done ++ rest;
    turn_block : N.of_nat (List.length (done ++ junk)) = capacity j;
    turn_allocs : forall i, (i <= j)%nat -> alloc_ok i = true;
    turn_least : forall i, (i < j)%nat ->
                   (capacity i < N.of_nat (List.length done) + 2048)%N }.

(** ** The test program, test_validate.c *)

Module TestValidate.

Section Program.

(** The validator's parser. *)
Variable cJSON_Parse : string -> option cJSON.

(** The bytes found in the array [err] before anything is written to it. *)
Variable stack_garbage : nat -> ascii.

(** The six string literals, each with its terminator, one behind the
    other. *)
Definition literals : list string :=
  [valid; missing_severity; wrong_type; bad_json; severity_high; severity_neg].

Definition rodata : list ascii :=
  List.concat (map (fun s => list_ascii_of_string s ++ [NUL]) literals).

(** The address of the [i]-th literal. *)
Definition literal (i : nat) : nat :=
  list_sum (map (fun s => S (String.length s)) (firstn i literals)).

(** The address of [err], behind the literals. *)
Definition err : nat := List.length rodata.

Definition initial_store : mem := rodata ++ map stack_garbage (seq 0 (N.to_nat BUF_SIZE)).

Definition pass_or_fail (passed : bool) : string := if passed then "PASS" else "FAIL".

(** The first [printf]: the call is expected to return non-zero. *)
Definition expect_valid (label : string) (text : nat) (state : mem * string)
  : mem * string :=
  let '(m, out) := state in
  let '(ok, m') :=
    validate_voicehealth_json cJSON_Parse m (Some text) (Some err) BUF_SIZE in
  (m', (out ++ label ++ pass_or_fail (negb (ok =? 0)%Z) ++ " (expect 1)" ++ Cli.LF)%string).

(** The other five: [err[0] = 0], a call expected to return zero, and the
    diagnostic when there is one. *)
Definition expect_invalid (label : string) (text : nat) (state : mem * string)
  : mem * string :=
  let '(m, out) := state in
  let m0 := store m err [NUL] in
  let '(ok, m') :=
    validate_voicehealth_json cJSON_Parse m0 (Some text) (Some err) BUF_SIZE in
  let out' :=
    (out ++ label ++ pass_or_fail (ok =? 0)%Z ++ " (expect 0)" ++ Cli.LF)%string in
  (m', if Ascii.eqb (nth err m' NUL) NUL then out'
       else (out' ++ "  -> " ++ load_cstring m' err ++ Cli.LF)%string).

(** [main]: what it returns and what it prints. *)
Definition main : Z * string :=
  let s0 := (initial_store, ""%string) in
  let s1 := expect_valid "Valid JSON:           " (literal 0) s0 in
  let s2 := expect_invalid "Missing severity:     " (literal 1) s1 in
  let s3 := expect_invalid "Wrong type symptoms:  " (literal 2) s2 in
  let s4 := expect_invalid "Bad JSON:             " (literal 3) s3 in
  let s5 := expect_invalid "Severity > 10:        " (literal 4) s4 in
  let s6 := expect_invalid "Severity < 0:         " (literal 5) s5 in
  (0, snd s6).

End Program.

End TestValidate.

(** One line of the test program's output. *)
Definition test_line (label : string) (expected : string) : string :=
  (label ++ "PASS (expect " ++ expected ++ ")" ++ Cli.LF)%string.

(** The line that shows a diagnostic. *)
Definition test_detail (f : failure) : string :=
  ("  -> " ++ diagnostic f ++ Cli.LF)%string.

(** Whether a verdict is the success. *)
Definition is_valid (v : ValidationResult) : bool :=
  match v with Valid => true | Invalid _ => false end.

(** The line of the test program for a call that is expected to succeed. *)
Definition valid_line (label : string) (v : ValidationResult) : string :=
  (label ++ TestValidate.pass_or_fail (is_valid v) ++ " (expect 1)" ++ Cli.LF)%string.

(** The lines for a call that is expected to fail: the line itself, and the
    diagnostic of that call when it did fail. *)
Definition invalid_lines (label : string) (v : ValidationResult) : string :=
  (label ++ TestValidate.pass_or_fail (negb (is_valid v)) ++ " (expect 0)" ++ Cli.LF
   ++ match v with
      | Valid => ""
      | Invalid f => "  -> " ++ diagnostic f ++ Cli.LF
      end)%string.


(** *** Settings for runs of the wrapper *)

(** An allocator that never fails, and one with room for the first block
    only. *)
Definition plenty (k : nat) : bool := true.
Definition first_block_only (k : nat) : bool := Nat.eqb k 0.

(** Storage that was filled with [#] and [!] before the run. *)
Definition hashes (i : nat) : ascii := "#"%char.
Definition bangs (i : nat) : ascii := "!"%char.

(** An input of 3000 bytes: a conforming object and blanks behind it. *)
Definition padded_input : list ascii :=
  list_ascii_of_string valid ++ repeat " "%char (3000 - String.length valid).

(** The text of [valid] with its members in another order. *)
Definition reordered : string :=
  json_text "{'severity':7,'potential_triggers':['caffeine'],'symptoms':['headache']}".

(** The text of [severity_high] with two members appended, one of them a
    second "severity". *)
Definition appended : string :=
  json_text "{'symptoms':['pain'],'severity':11,'potential_triggers':[],'severity':5,'note':null}".

(** *** What the validator looks at in a member *)

(** Two nodes that carry the same name, the same type tag and the same
    number; their strings, integers and children may differ. *)
Definition same_at_a_glance (c c' : cJSON) : Prop :=
  string_ c = string_ c' /\ type c = type c' /\ valuedouble c = valuedouble c'.

(** The text of [valid] with other things inside its two arrays. *)
Definition other_contents : string :=
  json_text "{'symptoms':[1,{'a':null}],'severity':7,'potential_triggers':[]}".

(** ** The byte store *)

Section StoreFacts.

Local Open Scope nat_scope.

Lemma store_length (m : mem) : forall p bs, List.length (store m p bs) = List.length m.
Proof.
  induction m as [|x m IH]; intros p bs; simpl; [reflexivity|].
  destruct p as [|p]; [destruct bs as [|b bs]|]; simpl; auto.
Qed.

(** A store leaves every address outside [p .. p + length bs) alone. *)
Lemma store_outside (m : mem) :
  forall p bs i, i < p \/ p + List.length bs <= i ->
    nth_error (store m p bs) i = nth_error m i.
Proof.
  induction m as [|x m IH]; intros p bs i Hi; simpl; [reflexivity|].
  destruct p as [|p].
  - destruct bs as [|b bs]; [reflexivity|].
    destruct i as [|i]; simpl in *; [lia|].
    apply IH. right. lia.
  - destruct i as [|i]; simpl; [reflexivity|].
    apply IH. lia.
Qed.

(** Inside the store, the bytes written are the bytes found. *)
Lemma store_inside (m : mem) :
  forall p bs, p + List.length bs <= List.length m ->
    skipn p (store m p bs) = bs ++ skipn (p + List.length bs) m.
Proof.
  induction m as [|x m IH]; intros p bs Hle; simpl in *.
  - assert (p = 0) by lia. subst p.
    destruct bs; simpl in *; [reflexivity | lia].
  - destruct p as [|p]; simpl.
    + destruct bs as [|b bs]; simpl; [reflexivity|].
      f_equal. apply (IH 0 bs). simpl in Hle. lia.
    + apply IH. lia.
Qed.

(** The text of a [char *] depends on its bytes up to the terminator only. *)
Lemma cstring_ext (l : list ascii) :
  forall l',
    (forall i, i <= String.length (cstring l) -> nth_error l i = nth_error l' i) ->
    cstring l = cstring l'.
Proof.
  induction l as [|c l IH]; intros l' H.
  - specialize (H 0 (Nat.le_0_l _)). destruct l'; [reflexivity | discriminate].
  - pose proof (H 0 (Nat.le_0_l _)) as H0.
    destruct l' as [|c' l']; [discriminate|].
    simpl in H0. injection H0 as <-.
    simpl in *. destruct (Ascii.eqb c NUL); [reflexivity|].
    f_equal. apply IH. intros i Hi.
    apply (H (S i)). simpl. lia.
Qed.

(** A NUL-free run followed by a NUL reads back as that run. *)
Lemma cstring_terminated (pre rest : list ascii) :
  Forall (fun c => c <> NUL) pre ->
  cstring (pre ++ NUL :: rest) = string_of_list_ascii pre.
Proof.
  induction 1 as [|c pre Hc _ IH]; simpl; [reflexivity|].
  destruct (Ascii.eqb_spec c NUL); [contradiction|]. now rewrite IH.
Qed.

Lemma load_cstring_store (m : mem) (p q : nat) (bs : list ascii) :
  q + List.length bs <= p \/ p + String.length (load_cstring m p) < q ->
  load_cstring (store m q bs) p = load_cstring m p.
Proof.
  intros H. unfold load_cstring. symmetry. apply cstring_ext.
  intros i Hi. rewrite !nth_error_skipn. symmetry. apply store_outside.
  unfold load_cstring in H. lia.
Qed.

Lemma diagnostic_no_NUL (f : failure) :
  Forall (fun c => c <> NUL) (list_ascii_of_string (diagnostic f)).
Proof.
  destruct f; simpl; repeat constructor; discriminate.
Qed.

Lemma Forall_firstn {A} (P : A -> Prop) (l : list A) :
  forall n, Forall P l -> Forall P (firstn n l).
Proof.
  induction l as [|x l IH]; intros [|n] H; simpl; auto.
  inversion H; subst. constructor; auto.
Qed.

(** What [snprintf] leaves in a buffer that lies inside the store: the
    message cut to [size - 1] bytes, then the terminator. *)
Lemma snprintf_s_inside (m : mem) (buf : nat) (size : N) (msg : string) :
  (0 < size)%N -> buf + N.to_nat size <= List.length m ->
  let k := Nat.min (N.to_nat size - 1) (String.length msg) in
  k < N.to_nat size
  /\ firstn (S k) (skipn buf (snprintf_s m buf size msg))
     = firstn k (list_ascii_of_string msg) ++ [NUL].
Proof.
  intros Hpos Hin k. split; [lia|].
  unfold snprintf_s. destruct (N.eqb_spec size 0); [lia|].
  set (w := firstn (N.to_nat size - 1) (list_ascii_of_string msg)).
  assert (Hlen : List.length (list_ascii_of_string msg) = String.length msg).
  { clear. induction msg; simpl; auto. }
  assert (Hw : List.length w = k).
  { unfold w, k. rewrite length_firstn, Hlen. reflexivity. }
  rewrite store_inside by (rewrite length_app, Hw; simpl; lia).
  rewrite firstn_app, length_app, Hw. simpl List.length.
  replace (S k - (k + 1)) with 0 by lia. rewrite firstn_O, app_nil_r.
  rewrite firstn_all2 by (rewrite length_app, Hw; simpl; lia).
  f_equal. unfold w. subst k.
  destruct (Nat.le_ge_cases (N.to_nat size - 1) (String.length msg)).
  - rewrite Nat.min_l by assumption. reflexivity.
  - rewrite Nat.min_r by assumption.
    rewrite !firstn_all2 by (rewrite Hlen; lia). reflexivity.
Qed.

(** Read back as a text, the buffer holds the message cut to [size - 1]. *)
Lemma snprintf_s_readback (m : mem) (buf : nat) (size : N) (msg : string) :
  (0 < size)%N -> buf + N.to_nat size <= List.length m ->
  Forall (fun c => c <> NUL) (list_ascii_of_string msg) ->
  load_cstring (snprintf_s m buf size msg) buf
  = string_of_list_ascii (firstn (N.to_nat size - 1) (list_ascii_of_string msg)).
Proof.
  intros Hpos Hin Hnul.
  unfold snprintf_s. destruct (N.eqb_spec size 0); [lia|].
  unfold load_cstring.
  assert (Hlen : List.length (firstn (N.to_nat size - 1) (list_ascii_of_string msg))
                 <= N.to_nat size - 1).
  { rewrite length_firstn. lia. }
  rewrite store_inside by (rewrite length_app; simpl; lia).
  rewrite <- app_assoc. simpl.
  apply cstring_terminated, Forall_firstn, Hnul.
Qed.

End StoreFacts.

(** ** Looking a member up *)

Section LookupFacts.

Lemma get_object_item_first (name : string) (it : cJSON) (after : list cJSON) :
  forall before,
    string_ it = Some name ->
    Forall (fun c => exists k, string_ c = Some k /\ k <> name) before ->
    get_object_item (before ++ it :: after) name = Some it.
Proof.
  intros before Hit Hbefore.
  induction Hbefore as [|c before (k & Hk & Hne) _ IH]; simpl.
  - now rewrite Hit, String.eqb_refl.
  - rewrite Hk. destruct (String.eqb_spec name k); [congruence | exact IH].
Qed.

Lemma maps_to_lookup (root : cJSON) (name : string) (it : cJSON) :
  maps_to root name it -> cJSON_GetObjectItemCaseSensitive root name = Some it.
Proof.
  intros (before & after & Hc & Hit & Hb).
  unfold cJSON_GetObjectItemCaseSensitive. rewrite Hc.
  now apply get_object_item_first.
Qed.

Lemma get_object_item_absent (name : string) (l : list cJSON) :
  (forall c, In c l -> string_ c <> Some name) -> get_object_item l name = None.
Proof.
  induction l as [|c l IH]; intros H; simpl; [reflexivity|].
  destruct (string_ c) as [k|] eqn:Hk; [|reflexivity].
  destruct (String.eqb_spec name k) as [->|_].
  - exfalso. apply (H c); [now left | exact Hk].
  - apply IH. intros c' Hc'. apply H. now right.
Qed.

Lemma lacks_member_lookup (root : cJSON) (name : string) :
  lacks_member root name -> cJSON_GetObjectItemCaseSensitive root name = None.
Proof. apply get_object_item_absent. Qed.

End LookupFacts.

(** ** Comparing a binary64 with the severity bounds *)

Section DoubleFacts.

Lemma double_of_int_MIN : double_of_int SEVERITY_MIN = S754_zero false.
Proof. reflexivity. Qed.

Lemma double_of_int_MAX :
  double_of_int SEVERITY_MAX = S754_finite false 5629499534213120 (-49).
Proof. reflexivity. Qed.

(** The mantissa of [n] digits lies in [2^(n-1) .. 2^n). *)
Lemma digits2_pos_bounds (m : positive) :
  2 ^ (Zpos (digits2_pos m) - 1) <= Zpos m < 2 ^ Zpos (digits2_pos m).
Proof.
  induction m as [m IH|m IH|]; simpl digits2_pos.
  - rewrite Pos2Z.inj_succ.
    replace (Z.succ (Zpos (digits2_pos m)) - 1) with (Z.succ (Zpos (digits2_pos m) - 1)) by lia.
    rewrite !Z.pow_succ_r by lia. lia.
  - rewrite Pos2Z.inj_succ.
    replace (Z.succ (Zpos (digits2_pos m)) - 1) with (Z.succ (Zpos (digits2_pos m) - 1)) by lia.
    rewrite !Z.pow_succ_r by lia. lia.
  - simpl. lia.
Qed.

(** A binary64 mantissa has at most 53 digits, and exactly 53 above the
    subnormal exponent. *)
Lemma is_double_digits (s : bool) (m : positive) (e : Z) :
  is_double (S754_finite s m e) ->
  Zpos (digits2_pos m) <= 53 /\ (-1074 < e -> Zpos (digits2_pos m) = 53).
Proof.
  unfold is_double, valid_binary, bounded, canonical_mantissa, fexp, emin, prec, emax.
  intros H. apply andb_prop in H as [H _]. apply Z.eqb_eq in H. lia.
Qed.

Lemma Qmag_pos (m : positive) (e : Z) : (0 < Qmag m e)%Q.
Proof.
  unfold Qmag, Qlt. destruct e as [|e|k]; cbn [Qnum Qden inject_Z].
  - lia.
  - assert (0 < 2 ^ Zpos e) by (apply Z.pow_pos_nonneg; lia). nia.
  - lia.
Qed.

(** [10 < m * 2^e] read on the integers. *)
Lemma Qmag_gt_10 (m : positive) (e : Z) :
  (10 < Qmag m e)%Q <->
  match e with
  | Zneg k => 10 * 2 ^ Zpos k < Zpos m
  | _ => 10 < Zpos m * 2 ^ e
  end.
Proof.
  unfold Qmag, Qlt. destruct e as [|e|k]; cbn [Qnum Qden inject_Z].
  - lia.
  - lia.
  - rewrite Pos2Z.inj_pow, Z.mul_1_r. reflexivity.
Qed.

(** Below the lower bound: the value is negative. *)
Lemma below_MIN_iff (x : spec_float) :
  is_finite x = true ->
  (SFltb x (double_of_int SEVERITY_MIN) = true <-> (B2Q x < 0)%Q).
Proof.
  rewrite double_of_int_MIN.
  destruct x as [s|s| |s m e]; cbn [is_finite B2Q]; try discriminate; intros _.
  - unfold SFltb; simpl. split; [discriminate|]. intros H. now apply Qlt_irrefl in H.
  - pose proof (Qmag_pos m e) as Hpos.
    unfold SFltb; cbn [SFcompare]. destruct s.
    + split; [intros _|reflexivity].
      apply Qopp_lt_compat in Hpos. exact Hpos.
    + split; [discriminate|]. intros H.
      exfalso. apply (Qlt_irrefl 0). now apply Qlt_trans with (Qmag m e).
Qed.

(** Above the upper bound: the value exceeds ten. *)
Lemma above_MAX_iff (x : spec_float) :
  is_double x -> is_finite x = true ->
  (SFltb (double_of_int SEVERITY_MAX) x = true <-> (10 < B2Q x)%Q).
Proof.
  rewrite double_of_int_MAX.
  destruct x as [s|s| |s m e]; cbn [is_finite B2Q]; try discriminate; intros Hv _.
  - unfold SFltb; simpl. split; [discriminate|]. unfold Qlt; simpl; lia.
  - apply is_double_digits in Hv as [Hd Hn].
    pose proof (digits2_pos_bounds m) as Hm.
    unfold SFltb; cbn [SFcompare]. destruct s.
    + split; [discriminate|]. intros H. exfalso.
      pose proof (Qmag_pos m e) as Hpos. apply Qopp_lt_compat in Hpos.
      apply (Qlt_irrefl 10).
      apply Qlt_trans with (- Qmag m e)%Q; [exact H|].
      apply Qlt_trans with (- 0)%Q; [exact Hpos | reflexivity].
    + rewrite Qmag_gt_10.
      destruct (Z.compare_spec (-49) e) as [He|He|He].
      * subst e. rewrite Pos.compare_cont_spec. cbn [Pos.switch_Eq].
        change (2 ^ Zpos 49) with 562949953421312.
        clear Hd Hn Hm.
        destruct (Pos.compare_spec 5629499534213120 m) as [E|E|E].
        -- split; [intros X; discriminate X | lia].
        -- split; [lia | reflexivity].
        -- apply Pos2Z.pos_lt_pos in E.
           split; [intros X; discriminate X | lia].
      * rewrite Hn in Hm by lia. split; [intros _|reflexivity].
        change (2 ^ (53 - 1)) with 4503599627370496 in Hm.
        destruct e as [|e|k].
        -- lia.
        -- assert (0 < 2 ^ Zpos e) by (apply Z.pow_pos_nonneg; lia). nia.
        -- assert (2 ^ Zpos k <= 2 ^ 48) by (apply Z.pow_le_mono_r; lia).
           change (2 ^ 48) with 281474976710656 in *. lia.
      * split; [discriminate|].
        destruct e as [|e|k]; try lia.
        assert (2 ^ 50 <= 2 ^ Zpos k) by (apply Z.pow_le_mono_r; lia).
        assert (Zpos m < 2 ^ 53).
        { eapply Z.lt_le_trans; [apply Hm|]. apply Z.pow_le_mono_r; lia. }
        change (2 ^ 50) with 1125899906842624 in *.
        change (2 ^ 53) with 9007199254740992 in *. lia.
Qed.

(** An infinity is out of range on its side. *)
Lemma infinity_out_of_range (s : bool) :
  SFltb (S754_infinity s) (double_of_int SEVERITY_MIN)
  || SFltb (double_of_int SEVERITY_MAX) (S754_infinity s) = true.
Proof. destruct s; reflexivity. Qed.

End DoubleFacts.

(** ** What [set_error] does to the store *)

Section SetErrorFacts.

Local Open Scope nat_scope.

Lemma string_length_list (s : string) :
  List.length (list_ascii_of_string s) = String.length s.
Proof. induction s; simpl; auto. Qed.

Lemma set_error_null (m : mem) (n : N) (msg : string) : set_error m None n msg = m.
Proof. reflexivity. Qed.

Lemma set_error_zero (m : mem) (q : ptr) (msg : string) : set_error m q 0 msg = m.
Proof. destruct q; reflexivity. Qed.

Lemma set_error_length (m : mem) (q : ptr) (n : N) (msg : string) :
  List.length (set_error m q n msg) = List.length m.
Proof.
  unfold set_error, snprintf_s. destruct q as [b|]; [|reflexivity].
  destruct (0 <? n)%N; [|reflexivity].
  destruct (n =? 0)%N; [reflexivity | apply store_length].
Qed.

(** [set_error] writes inside [buf .. buf + error_size) only. *)
Lemma set_error_outside (m : mem) (b : nat) (n : N) (msg : string) (i : nat) :
  i < b \/ b + N.to_nat n <= i ->
  nth_error (set_error m (Some b) n msg) i = nth_error m i.
Proof.
  intros Hi. unfold set_error, snprintf_s.
  destruct (N.ltb_spec 0 n) as [Hn|_]; [|reflexivity].
  destruct (N.eqb_spec n 0) as [|_]; [reflexivity|].
  apply store_outside. rewrite length_app, length_firstn. simpl. lia.
Qed.

Lemma set_error_inside (m : mem) (b : nat) (n : N) (msg : string) :
  (0 < n)%N -> b + N.to_nat n <= List.length m ->
  let k := Nat.min (N.to_nat n - 1) (String.length msg) in
  k < N.to_nat n
  /\ firstn (S k) (skipn b (set_error m (Some b) n msg))
     = firstn k (list_ascii_of_string msg) ++ [NUL].
Proof.
  intros Hn Hin. unfold set_error.
  destruct (N.ltb_spec 0 n); [|lia]. now apply snprintf_s_inside.
Qed.

Lemma set_error_readback (m : mem) (b : nat) (n : N) (f : failure) :
  (0 < n)%N -> b + N.to_nat n <= List.length m ->
  load_cstring (set_error m (Some b) n (diagnostic f)) b
  = string_of_list_ascii
      (firstn (N.to_nat n - 1) (list_ascii_of_string (diagnostic f))).
Proof.
  intros Hn Hin. unfold set_error.
  destruct (N.ltb_spec 0 n); [|lia].
  apply snprintf_s_readback; auto using diagnostic_no_NUL.
Qed.

(** A buffer that holds the whole diagnostic reads back as the diagnostic. *)
Lemma set_error_readback_whole (m : mem) (b : nat) (n : N) (f : failure) :
  String.length (diagnostic f) < N.to_nat n -> b + N.to_nat n <= List.length m ->
  load_cstring (set_error m (Some b) n (diagnostic f)) b = diagnostic f.
Proof.
  intros Hlen Hin. rewrite set_error_readback by lia.
  rewrite firstn_all2 by (rewrite string_length_list; lia).
  apply string_of_list_ascii_of_string.
Qed.

Lemma store_idempotent (m : mem) :
  forall p bs, store (store m p bs) p bs = store m p bs.
Proof.
  induction m as [|x m IH]; intros p bs; simpl; [reflexivity|].
  destruct p as [|p]; [destruct bs as [|b bs]|]; simpl; f_equal; auto.
Qed.

Lemma set_error_idempotent (m : mem) (q : ptr) (n : N) (msg : string) :
  set_error (set_error m q n msg) q n msg = set_error m q n msg.
Proof.
  unfold set_error, snprintf_s. destruct q as [b|]; [|reflexivity].
  destruct (0 <? n)%N; [|reflexivity].
  destruct (n =? 0)%N; [reflexivity | apply store_idempotent].
Qed.

(** A separate error buffer leaves the text at [p] as it was. *)
Lemma set_error_separate (m : mem) (p : nat) (q : ptr) (n : N) (msg : string) :
  separate m p q n ->
  load_cstring (set_error m q n msg) p = load_cstring m p
  /\ forall i, p <= i <= p + String.length (load_cstring m p) ->
               nth_error (set_error m q n msg) i = nth_error m i.
Proof.
  destruct q as [b|]; [|now split]. simpl.
  intros [->|Hsep]; [now split|]. split.
  - destruct (N.ltb_spec 0 n) as [Hn|_]; [|reflexivity].
    unfold snprintf_s. destruct (N.eqb_spec n 0) as [|_]; [reflexivity|].
    apply load_cstring_store. rewrite length_app, length_firstn. simpl. lia.
  - intros i Hi. apply (set_error_outside m b n msg i). lia.
Qed.

(** Sending a diagnostic through [set_error] is reporting it. *)
Lemma reports_diagnostic (m : mem) (q : ptr) (n : N) (f : failure) :
  reports m q n (0%Z, set_error m q n (diagnostic f)) (diagnostic f).
Proof.
  split; [reflexivity|]. intros b -> Hn Hin. cbn [snd]. split.
  - now apply set_error_readback.
  - intros Hlen. now apply set_error_readback_whole.
Qed.

End SetErrorFacts.

(** ** The validator follows the specification's algorithm *)

Section Refinement.

Variable cJSON_Parse : string -> option cJSON.

Lemma validate_refines (m : mem) (json_string error_msg : ptr) (error_size : N) :
  validate_voicehealth_json cJSON_Parse m json_string error_msg error_size
  = report m error_msg error_size
      (spec_validate cJSON_Parse (input_of m json_string)).
Proof.
  unfold validate_voicehealth_json, spec_validate, check_order, SEVERITY_MIN, SEVERITY_MAX.
  destruct json_string as [p|]; [|reflexivity].
  cbn [input_of option_map find fails]. unfold member, parsed.
  destruct (cJSON_Parse (load_cstring m p)) as [root|]; [|reflexivity].
  destruct (cJSON_IsObject root); [|reflexivity]. cbn [negb].
  destruct (cJSON_GetObjectItemCaseSensitive root "symptoms") as [sy|]; [|reflexivity].
  destruct (cJSON_IsArray sy); [|reflexivity]. cbn [negb].
  destruct (cJSON_GetObjectItemCaseSensitive root "severity") as [sv|]; [|reflexivity].
  destruct (cJSON_IsNumber sv); [|reflexivity]. cbn [negb].
  destruct (SFltb (valuedouble sv) (double_of_int 0)
            || SFltb (double_of_int 10) (valuedouble sv)); [reflexivity|].
  destruct (cJSON_GetObjectItemCaseSensitive root "potential_triggers") as [tr|];
    [|reflexivity].
  destruct (cJSON_IsArray tr); reflexivity.
Qed.

(** The verdict on an object whose three members pass the type checks is
    the range check on the severity. *)
Lemma validate_schema_members (m : mem) (p : nat) (q : ptr) (n : N)
    (root symptoms severity triggers : cJSON) :
  cJSON_Parse (load_cstring m p) = Some root ->
  cJSON_IsObject root = true ->
  maps_to root "symptoms" symptoms -> cJSON_IsArray symptoms = true ->
  maps_to root "severity" severity -> cJSON_IsNumber severity = true ->
  maps_to root "potential_triggers" triggers -> cJSON_IsArray triggers = true ->
  validate_voicehealth_json cJSON_Parse m (Some p) q n
  = if SFltb (valuedouble severity) (double_of_int SEVERITY_MIN)
       || SFltb (double_of_int SEVERITY_MAX) (valuedouble severity)
    then (0, set_error m q n "Severity must be between 0 and 10")
    else (1, m).
Proof.
  intros Hp Ho Hs Hsa Hv Hvn Ht Hta.
  apply maps_to_lookup in Hs, Hv, Ht.
  unfold validate_voicehealth_json.
  rewrite Hp, Ho, Hs, Hsa, Hv, Hvn, Ht, Hta. reflexivity.
Qed.

Lemma in_range_accepted (x : spec_float) :
  is_double x -> is_finite x = true -> (0 <= B2Q x)%Q -> (B2Q x <= 10)%Q ->
  SFltb x (double_of_int SEVERITY_MIN) || SFltb (double_of_int SEVERITY_MAX) x = false.
Proof.
  intros Hd Hf H0 H10. apply orb_false_iff. split.
  - destruct (SFltb x (double_of_int SEVERITY_MIN)) eqn:E; [|reflexivity].
    apply below_MIN_iff in E; [|exact Hf].
    exfalso. apply (Qlt_irrefl 0). now apply Qle_lt_trans with (B2Q x).
  - destruct (SFltb (double_of_int SEVERITY_MAX) x) eqn:E; [|reflexivity].
    apply above_MAX_iff in E; [|exact Hd|exact Hf].
    exfalso. apply (Qlt_irrefl 10). now apply Qlt_le_trans with (B2Q x).
Qed.

Lemma out_of_range_rejected (x : spec_float) :
  is_double x -> is_finite x = true -> (B2Q x < 0 \/ 10 < B2Q x)%Q ->
  SFltb x (double_of_int SEVERITY_MIN) || SFltb (double_of_int SEVERITY_MAX) x = true.
Proof.
  intros Hd Hf [H|H]; apply orb_true_iff.
  - left. now apply below_MIN_iff.
  - right. now apply above_MAX_iff.
Qed.

(** The store a call leaves is the one it got, or that with one diagnostic
    sent through [set_error]. *)
Lemma validate_store (m : mem) (js q : ptr) (n : N) :
  snd (validate_voicehealth_json cJSON_Parse m js q n) = m
  \/ exists f, validate_voicehealth_json cJSON_Parse m js q n
               = (0, set_error m q n (diagnostic f)).
Proof.
  rewrite validate_refines.
  destruct (spec_validate cJSON_Parse (input_of m js)) as [|f]; simpl; eauto.
Qed.

End Refinement.

(** ** Properties of [validate_voicehealth_json] *)

Section Properties.

(** Everything here holds whatever [cJSON_Parse] answers, as long as it
    answers the same for the same text. *)
Variable cJSON_Parse : string -> option cJSON.

Local Abbreviation validate := (validate_voicehealth_json cJSON_Parse).

(** C1.  A text that parses as an object whose "symptoms" is an array, whose
    "severity" is a number with a value between 0 and 10 inclusive, and
    whose "potential_triggers" is an array, is valid: the call returns 1,
    whatever other members the object has. *)
Theorem schema_conforming_is_valid
    (m : mem) (p : nat) (q : ptr) (n : N)
    (root symptoms severity triggers : cJSON) :
  cJSON_Parse (load_cstring m p) = Some root ->
  cJSON_IsObject root = true ->
  maps_to root "symptoms" symptoms -> cJSON_IsArray symptoms = true ->
  maps_to root "severity" severity -> cJSON_IsNumber severity = true ->
  is_double (valuedouble severity) ->
  is_finite (valuedouble severity) = true ->
  (0 <= B2Q (valuedouble severity) /\ B2Q (valuedouble severity) <= 10)%Q ->
  maps_to root "potential_triggers" triggers -> cJSON_IsArray triggers = true ->
  validate m (Some p) q n = (1, m).
Proof.
  intros Hp Ho Hs Hsa Hv Hvn Hd Hf [H0 H10] Ht Hta.
  rewrite (validate_schema_members cJSON_Parse m p q n root symptoms severity triggers)
    by assumption.
  now rewrite in_range_accepted.
Qed.

(** C2.  The checks run in the order null input, parse, root is an object,
    symptoms, severity type, severity range, potential_triggers, and the
    first one that fails decides; so an object that has neither "symptoms"
    nor "severity" is reported with the symptoms diagnostic, not the
    severity one. *)
Theorem first_failure_is_reported :
  (forall m js q n,
      validate m js q n = report m q n (spec_validate cJSON_Parse (input_of m js)))
  /\ (forall m p q n root,
         cJSON_Parse (load_cstring m p) = Some root ->
         cJSON_IsObject root = true ->
         lacks_member root "symptoms" ->
         lacks_member root "severity" ->
         spec_validate cJSON_Parse (input_of m (Some p)) = Invalid SymptomsInvalid
         /\ validate m (Some p) q n
            = (0, set_error m q n "Missing or invalid 'symptoms' (must be array)")
         /\ (forall b, q = Some b ->
               (String.length (diagnostic SymptomsInvalid) < N.to_nat n)%nat ->
               (b + N.to_nat n <= List.length m)%nat ->
               load_cstring (snd (validate m (Some p) q n)) b
               = "Missing or invalid 'symptoms' (must be array)"%string
               /\ load_cstring (snd (validate m (Some p) q n)) b
                  <> "Missing or invalid 'severity' (must be number)"%string)).
Proof.
  split; [intros; apply validate_refines|].
  intros m p q n root Hp Ho Hs Hv.
  assert (Hspec : spec_validate cJSON_Parse (input_of m (Some p)) = Invalid SymptomsInvalid).
  { unfold spec_validate, check_order.
    cbn [input_of option_map find fails]. unfold member, parsed.
    rewrite Hp, Ho, (lacks_member_lookup _ _ Hs). reflexivity. }
  assert (Hrun : validate m (Some p) q n
                 = (0, set_error m q n (diagnostic SymptomsInvalid))).
  { rewrite validate_refines, Hspec. reflexivity. }
  split; [exact Hspec|]. split; [exact Hrun|].
  intros b -> Hlen Hin. rewrite Hrun. cbn [snd].
  rewrite set_error_readback_whole by assumption.
  split; [reflexivity | discriminate].
Qed.

(** C3.  With the rest of the schema in order, a severity of exactly 0 or
    exactly 10 is valid, and a severity below 0 or above 10 is rejected with
    "Severity must be between 0 and 10": the call returns 0, and a buffer
    that holds the message reads back exactly that text. *)
Theorem severity_bounds_are_inclusive
    (m : mem) (p : nat) (q : ptr) (n : N)
    (root symptoms severity triggers : cJSON) :
  cJSON_Parse (load_cstring m p) = Some root ->
  cJSON_IsObject root = true ->
  maps_to root "symptoms" symptoms -> cJSON_IsArray symptoms = true ->
  maps_to root "severity" severity -> cJSON_IsNumber severity = true ->
  is_double (valuedouble severity) ->
  maps_to root "potential_triggers" triggers -> cJSON_IsArray triggers = true ->
  let s := valuedouble severity in
  let r := validate m (Some p) q n in
  let rejected :=
    r = (0, set_error m q n "Severity must be between 0 and 10")
    /\ (forall b, q = Some b ->
          (String.length "Severity must be between 0 and 10" < N.to_nat n)%nat ->
          (b + N.to_nat n <= List.length m)%nat ->
          load_cstring (snd r) b = "Severity must be between 0 and 10"%string) in
  (is_finite s = true ->
     ((B2Q s == 0)%Q -> r = (1, m))
     /\ ((B2Q s == 10)%Q -> r = (1, m))
     /\ ((B2Q s < 0 \/ 10 < B2Q s)%Q -> rejected))
  /\ (forall sign, s = S754_infinity sign -> rejected).
Proof.
  intros Hp Ho Hs Hsa Hv Hvn Hd Ht Hta s r rejected.
  assert (Hr : r = if SFltb s (double_of_int SEVERITY_MIN)
                      || SFltb (double_of_int SEVERITY_MAX) s
                   then (0, set_error m q n (diagnostic SeverityOutOfRange))
                   else (1, m)).
  { unfold r, s.
    now rewrite (validate_schema_members cJSON_Parse m p q n
                   root symptoms severity triggers). }
  assert (Hrej : SFltb s (double_of_int SEVERITY_MIN)
                 || SFltb (double_of_int SEVERITY_MAX) s = true -> rejected).
  { intros E. rewrite E in Hr. unfold rejected. rewrite Hr. split; [reflexivity|].
    intros b -> Hlen Hin. cbn [snd].
    now apply (set_error_readback_whole m b n SeverityOutOfRange). }
  split; [intros Hf; repeat split|].
  - intros E. rewrite Hr, in_range_accepted; auto; rewrite E; discriminate.
  - intros E. rewrite Hr, in_range_accepted; auto; rewrite E; discriminate.
  - apply Hrej. now apply out_of_range_rejected.
  - apply Hrej. now apply out_of_range_rejected.
  - intros sign E. apply Hrej. rewrite E. apply infinity_out_of_range.
Qed.

(** C6.  A diagnostic goes through the caller's buffer cut to its capacity
    and terminated, and no byte outside the capacity is written; with a null
    buffer or a capacity of zero nothing is written; and the [int] returned
    is the same whatever the buffer. *)
Theorem diagnostic_stays_in_buffer (m : mem) (js q : ptr) (n : N) :
  let r := validate m js q n in
  List.length (snd r) = List.length m
  /\ (forall b i, q = Some b -> (i < b \/ b + N.to_nat n <= i)%nat ->
        nth_error (snd r) i = nth_error m i)
  /\ (q = None \/ n = 0%N -> snd r = m)
  /\ (forall q' n', fst (validate m js q' n') = fst r)
  /\ (forall b, q = Some b -> (0 < n)%N -> (b + N.to_nat n <= List.length m)%nat ->
        fst r = 0 ->
        exists f k,
          k = Nat.min (N.to_nat n - 1) (String.length (diagnostic f))
          /\ (k < N.to_nat n)%nat
          /\ firstn (S k) (skipn b (snd r))
             = firstn k (list_ascii_of_string (diagnostic f)) ++ [NUL]
          /\ load_cstring (snd r) b
             = string_of_list_ascii (firstn k (list_ascii_of_string (diagnostic f)))).
Proof.
  intros r. subst r. rewrite !validate_refines.
  set (v := spec_validate cJSON_Parse (input_of m js)).
  split; [|split; [|split; [|split]]].
  - destruct v; cbn [report snd]; auto using set_error_length.
  - intros b i -> Hi. destruct v; cbn [report snd]; auto using set_error_outside.
  - intros [->| ->]; destruct v; cbn [report snd];
      auto using set_error_zero, set_error_null.
  - intros q' n'. rewrite validate_refines. fold v. now destruct v.
  - intros b -> Hn Hin Hr. destruct v as [|f]; [discriminate|].
    exists f, (Nat.min (N.to_nat n - 1) (String.length (diagnostic f))).
    cbn [report snd].
    destruct (set_error_inside m b n (diagnostic f) Hn Hin) as [Hk Hw].
    repeat split; auto.
    rewrite set_error_readback by assumption. f_equal.
    destruct (Nat.le_ge_cases (N.to_nat n - 1) (String.length (diagnostic f))).
    + now rewrite Nat.min_l.
    + rewrite Nat.min_r by assumption.
      rewrite !firstn_all2 by (rewrite string_length_list; lia). reflexivity.
Qed.

(** C7.  Validation is a function of the input text: two calls on the same
    text, with equal capacities, return the same [int] and send the same
    diagnostic, whatever the stores and addresses; and a second call after
    a first one that left the text alone repeats it. *)
Theorem same_input_same_result :
  (forall m1 m2 js1 js2 q1 q2 n,
      input_of m1 js1 = input_of m2 js2 ->
      (exists v, validate m1 js1 q1 n = report m1 q1 n v
                 /\ validate m2 js2 q2 n = report m2 q2 n v)
      /\ fst (validate m1 js1 q1 n) = fst (validate m2 js2 q2 n)
      /\ (forall b1 b2, q1 = Some b1 -> q2 = Some b2 -> (0 < n)%N ->
            (b1 + N.to_nat n <= List.length m1)%nat ->
            (b2 + N.to_nat n <= List.length m2)%nat ->
            fst (validate m1 js1 q1 n) = 0 ->
            load_cstring (snd (validate m1 js1 q1 n)) b1
            = load_cstring (snd (validate m2 js2 q2 n)) b2))
  /\ (forall m js q n,
         input_of (snd (validate m js q n)) js = input_of m js ->
         validate (snd (validate m js q n)) js q n = validate m js q n).
Proof.
  split.
  - intros m1 m2 js1 js2 q1 q2 n Hin.
    rewrite !validate_refines, Hin.
    set (v := spec_validate cJSON_Parse (input_of m2 js2)).
    split; [now exists v|]. split; [now destruct v|].
    intros b1 b2 -> -> Hn H1 H2 Hr. destruct v as [|f]; [discriminate|].
    cbn [report snd]. now rewrite !set_error_readback.
  - intros m js q n Hin.
    rewrite (validate_refines cJSON_Parse (snd _)), Hin.
    rewrite !validate_refines.
    destruct (spec_validate cJSON_Parse (input_of m js)) as [|f]; cbn [report snd].
    + reflexivity.
    + now rewrite set_error_idempotent.
Qed.

(** With an error buffer of its own the text is safe: when the error buffer
    does not overlap the input text and its terminator, or is null or of
    capacity zero, or when the call returns 1, the call leaves every byte of
    the text as it was. *)
Lemma separate_buffer_keeps_input (m : mem) (p : nat) (q : ptr) (n : N) :
  separate m p q n \/ fst (validate m (Some p) q n) = 1 ->
  load_cstring (snd (validate m (Some p) q n)) p = load_cstring m p
  /\ forall i, (p <= i <= p + String.length (load_cstring m p))%nat ->
               nth_error (snd (validate m (Some p) q n)) i = nth_error m i.
Proof.
  intros Hsep.
  destruct (validate_store cJSON_Parse m (Some p) q n) as [->|(f & E)].
  - now split.
  - rewrite E in *. cbn [fst snd] in *.
    destruct Hsep as [Hsep|Hsep]; [|discriminate].
    now apply set_error_separate.
Qed.

(** C9.  Every call returns, and what it returns is 0 or 1. *)
Theorem result_is_zero_or_one (m : mem) (js q : ptr) (n : N) :
  fst (validate m js q n) = 0 \/ fst (validate m js q n) = 1.
Proof.
  rewrite validate_refines.
  destruct (spec_validate cJSON_Parse (input_of m js)); simpl; auto.
Qed.

(** C10.  A call that returns 1 has written nothing: the store, and with
    it the error buffer, is as it was before the call. *)
Theorem success_leaves_buffer_untouched (m : mem) (js q : ptr) (n : N) :
  fst (validate m js q n) = 1 ->
  snd (validate m js q n) = m.
Proof.
  rewrite validate_refines.
  destruct (spec_validate cJSON_Parse (input_of m js)); simpl;
    [reflexivity | discriminate].
Qed.

End Properties.

(** ** The validator over the cJSON parser *)

(** Whatever a lookup finds is the member of that name. *)
Lemma lookup_maps_to (root : cJSON) (name : string) (it : cJSON) :
  cJSON_GetObjectItemCaseSensitive root name = Some it -> maps_to root name it.
Proof.
  unfold cJSON_GetObjectItemCaseSensitive, maps_to.
  induction (child root) as [|c l IH]; simpl; [discriminate|].
  destruct (string_ c) as [k|] eqn:Hk; [|discriminate].
  destruct (String.eqb_spec name k) as [->|Hne].
  - intros [= <-]. exists [], l. repeat split; auto.
  - intros H. destruct (IH H) as (before & after & -> & Hit & Hb).
    exists (c :: before), after. repeat split; auto.
    constructor; [|exact Hb]. exists k. split; [exact Hk | congruence].
Qed.

Lemma empty_text_is_malformed : Parser.cJSON_Parse "" = None.
Proof. reflexivity. Qed.

(** C4.  A null pointer and an empty text fail differently: the null pointer
    with "Input string is null", the empty text with "Malformed JSON". *)
Theorem null_and_empty_are_distinct (m : mem) (q : ptr) (n : N) :
  validate_voicehealth_json Parser.cJSON_Parse m None q n
  = (0, set_error m q n "Input string is null")
  /\ forall p, load_cstring m p = ""%string ->
       validate_voicehealth_json Parser.cJSON_Parse m (Some p) q n
       = (0, set_error m q n "Malformed JSON")
       /\ spec_validate Parser.cJSON_Parse (input_of m (Some p)) = Invalid MalformedJson
       /\ (forall b, q = Some b ->
             (String.length (diagnostic MalformedJson) < N.to_nat n)%nat ->
             (b + N.to_nat n <= List.length m)%nat ->
             load_cstring
               (snd (validate_voicehealth_json Parser.cJSON_Parse m (Some p) q n)) b
             = "Malformed JSON"%string
             /\ load_cstring
                  (snd (validate_voicehealth_json Parser.cJSON_Parse m (Some p) q n)) b
                <> "Input string is null"%string).
Proof.
  split; [reflexivity|]. intros p Hp.
  assert (Hrun : validate_voicehealth_json Parser.cJSON_Parse m (Some p) q n
                 = (0, set_error m q n (diagnostic MalformedJson))).
  { unfold validate_voicehealth_json. now rewrite Hp, empty_text_is_malformed. }
  split; [exact Hrun|]. split.
  - unfold spec_validate, check_order. cbn [input_of option_map find fails].
    unfold parsed. now rewrite Hp, empty_text_is_malformed.
  - intros b -> Hlen Hin. rewrite Hrun. cbn [snd].
    rewrite set_error_readback_whole by assumption.
    split; [reflexivity | discriminate].
Qed.

(** ** The scenarios, run *)

(** The member asked for, found by running the lookup. *)
Ltac found := apply lookup_maps_to; vm_compute; reflexivity.

(** No child of a parsed root carries the name. *)
Ltac absent :=
  let c := fresh "c" in
  let H := fresh "H" in
  intros c H; cbn [child] in H;
  repeat (destruct H as [<-|H]; [discriminate|]); destruct H.

Ltac in_range := split; vm_compute; intros X; discriminate X.

Lemma extra_fields_are_tolerated :
  run_test extra_fields = (1, test_mem extra_fields).
Proof.
  unfold run_test.
  eapply (schema_conforming_is_valid Parser.cJSON_Parse);
    [ vm_compute; reflexivity | reflexivity
    | found | reflexivity | found | reflexivity
    | reflexivity | reflexivity | in_range
    | found | reflexivity ].
Defined.

Lemma missing_both_reports_symptoms :
  run_test missing_both
  = (0, set_error (test_mem missing_both) (test_err missing_both) BUF_SIZE
          "Missing or invalid 'symptoms' (must be array)")
  /\ test_outcome missing_both = (0, "Missing or invalid 'symptoms' (must be array)"%string)
  /\ snd (test_outcome missing_both) <> "Missing or invalid 'severity' (must be number)"%string.
Proof.
  destruct (proj2 (first_failure_is_reported Parser.cJSON_Parse)
              (test_mem missing_both) 0%nat (test_err missing_both) BUF_SIZE
              (Item cJSON_Object None 0 (S754_zero false) None
                 [Item cJSON_Array None 0 (S754_zero false)
                    (Some "potential_triggers"%string) []]))
    as (_ & Hrun & Hread);
    [ vm_compute; reflexivity | reflexivity | absent | absent |].
  destruct (Hread _ eq_refl) as [Htext Hne];
    [ vm_compute; lia | vm_compute; lia |].
  unfold test_outcome, run_test. cbn [snd].
  split; [exact Hrun|]. split; [|exact Hne].
  rewrite Htext, Hrun. reflexivity.
Defined.

(** Splits an instance [thm] of the severity theorem on a parsed conforming
    object: [Hfin] is what it says of a finite severity, [Hinf] of an
    infinite one. *)
Ltac severity_case thm Hfin Hinf :=
  edestruct thm as [Hfin Hinf];
  [ vm_compute; reflexivity | reflexivity
  | found | reflexivity | found | reflexivity | reflexivity
  | found | reflexivity | ].

Lemma severity_boundaries_run :
  run_test (with_severity "0") = (1, test_mem (with_severity "0"))
  /\ run_test (with_severity "10") = (1, test_mem (with_severity "10"))
  /\ run_test (with_severity "-0.0001")
     = (0, set_error (test_mem (with_severity "-0.0001"))
             (test_err (with_severity "-0.0001")) BUF_SIZE
             "Severity must be between 0 and 10")
  /\ run_test (with_severity "10.0001")
     = (0, set_error (test_mem (with_severity "10.0001"))
             (test_err (with_severity "10.0001")) BUF_SIZE
             "Severity must be between 0 and 10")
  /\ run_test (with_severity "1e999")
     = (0, set_error (test_mem (with_severity "1e999"))
             (test_err (with_severity "1e999")) BUF_SIZE
             "Severity must be between 0 and 10")
  /\ test_outcome (with_severity "-0.0001")
     = (0, "Severity must be between 0 and 10"%string)
  /\ test_outcome (with_severity "10.0001")
     = (0, "Severity must be between 0 and 10"%string)
  /\ test_outcome (with_severity "1e999")
     = (0, "Severity must be between 0 and 10"%string).
Proof.
  assert (Hneg : run_test (with_severity "-0.0001")
                 = (0, set_error (test_mem (with_severity "-0.0001"))
                         (test_err (with_severity "-0.0001")) BUF_SIZE
                         "Severity must be between 0 and 10")
                 /\ test_outcome (with_severity "-0.0001")
                    = (0, "Severity must be between 0 and 10"%string)).
  { unfold test_outcome, run_test.
    severity_case
      (severity_bounds_are_inclusive Parser.cJSON_Parse
         (test_mem (with_severity "-0.0001")) 0%nat
         (test_err (with_severity "-0.0001")) BUF_SIZE) Hfin Hinf.
    destruct (proj2 (proj2 (Hfin eq_refl))) as [E Hback];
      [left; vm_compute; reflexivity|].
    split; [exact E|].
    rewrite (Hback _ eq_refl) by (vm_compute; lia). now rewrite E. }
  assert (Hhigh : run_test (with_severity "10.0001")
                  = (0, set_error (test_mem (with_severity "10.0001"))
                          (test_err (with_severity "10.0001")) BUF_SIZE
                          "Severity must be between 0 and 10")
                  /\ test_outcome (with_severity "10.0001")
                     = (0, "Severity must be between 0 and 10"%string)).
  { unfold test_outcome, run_test.
    severity_case
      (severity_bounds_are_inclusive Parser.cJSON_Parse
         (test_mem (with_severity "10.0001")) 0%nat
         (test_err (with_severity "10.0001")) BUF_SIZE) Hfin Hinf.
    destruct (proj2 (proj2 (Hfin eq_refl))) as [E Hback];
      [right; vm_compute; reflexivity|].
    split; [exact E|].
    rewrite (Hback _ eq_refl) by (vm_compute; lia). now rewrite E. }
  assert (Hinfinite : run_test (with_severity "1e999")
                      = (0, set_error (test_mem (with_severity "1e999"))
                              (test_err (with_severity "1e999")) BUF_SIZE
                              "Severity must be between 0 and 10")
                      /\ test_outcome (with_severity "1e999")
                         = (0, "Severity must be between 0 and 10"%string)).
  { unfold test_outcome, run_test.
    severity_case
      (severity_bounds_are_inclusive Parser.cJSON_Parse
         (test_mem (with_severity "1e999")) 0%nat
         (test_err (with_severity "1e999")) BUF_SIZE) Hfin Hinf.
    destruct (Hinf false eq_refl) as [E Hback].
    split; [exact E|].
    rewrite (Hback _ eq_refl) by (vm_compute; lia). now rewrite E. }
  split; [|split;
    [|exact (conj (proj1 Hneg) (conj (proj1 Hhigh) (conj (proj1 Hinfinite)
               (conj (proj2 Hneg) (conj (proj2 Hhigh) (proj2 Hinfinite))))))]].
  - unfold run_test.
    severity_case
      (severity_bounds_are_inclusive Parser.cJSON_Parse
         (test_mem (with_severity "0")) 0%nat
         (test_err (with_severity "0")) BUF_SIZE) Hfin Hinf.
    apply (proj1 (Hfin eq_refl)). reflexivity.
  - unfold run_test.
    severity_case
      (severity_bounds_are_inclusive Parser.cJSON_Parse
         (test_mem (with_severity "10")) 0%nat
         (test_err (with_severity "10")) BUF_SIZE) Hfin Hinf.
    apply (proj1 (proj2 (Hfin eq_refl))). reflexivity.
Defined.

Lemma empty_text_reports_malformed :
  run_test "" = (0, set_error (test_mem "") (test_err "") BUF_SIZE "Malformed JSON")
  /\ test_outcome "" = (0, "Malformed JSON"%string)
  /\ snd (test_outcome "") <> "Input string is null"%string.
Proof.
  destruct (proj2 (null_and_empty_are_distinct (test_mem "") (test_err "") BUF_SIZE)
              0%nat eq_refl) as (Hrun & _ & Hread).
  destruct (Hread _ eq_refl) as [Htext Hne];
    [ vm_compute; lia | vm_compute; lia |].
  unfold test_outcome, run_test. cbn [snd].
  split; [exact Hrun|]. split; [|exact Hne].
  rewrite Htext, Hrun. reflexivity.
Defined.

(** Eight bytes of capacity: seven bytes of the diagnostic and the
    terminator, and the four bytes behind the buffer as they were. *)
Lemma small_buffer_is_respected :
  let m := small_mem bad_json in
  let b := S (String.length bad_json) in
  let m' := snd (validate_voicehealth_json Parser.cJSON_Parse m (Some 0%nat) (Some b) 8) in
  (exists f k,
      k = Nat.min (N.to_nat 8 - 1) (String.length (diagnostic f))
      /\ (k < N.to_nat 8)%nat
      /\ firstn (S k) (skipn b m')
         = firstn k (list_ascii_of_string (diagnostic f)) ++ [NUL]
      /\ load_cstring m' b
         = string_of_list_ascii (firstn k (list_ascii_of_string (diagnostic f))))
  /\ load_cstring m' b = "Malform"%string
  /\ skipn (b + 8) m' = repeat "!"%char 4.
Proof.
  intros m b m'.
  destruct (diagnostic_stays_in_buffer Parser.cJSON_Parse m (Some 0%nat) (Some b) 8)
    as (_ & _ & _ & _ & Hin).
  split; [|split; vm_compute; reflexivity].
  apply (Hin b eq_refl); [reflexivity | vm_compute; lia | vm_compute; reflexivity].
Defined.

(** The same text in two stores at two addresses, and a call repeated on the
    store the first call left. *)
Lemma repeated_call_repeats :
  let m1 := test_mem severity_high in
  let m2 := moved_mem severity_high in
  let q1 := test_err severity_high in
  let first := validate_voicehealth_json Parser.cJSON_Parse m1 (Some 0%nat) q1 BUF_SIZE in
  let moved :=
    validate_voicehealth_json Parser.cJSON_Parse m2 (Some (N.to_nat BUF_SIZE))
      (Some 0%nat) BUF_SIZE in
  fst first = fst moved
  /\ load_cstring (snd first) (S (String.length severity_high))
     = load_cstring (snd moved) 0
  /\ validate_voicehealth_json Parser.cJSON_Parse (snd first) (Some 0%nat) q1 BUF_SIZE
     = first.
Proof.
  intros m1 m2 q1 first moved.
  destruct (same_input_same_result Parser.cJSON_Parse) as [Hsame Htwice].
  destruct (Hsame m1 m2 (Some 0%nat) (Some (N.to_nat BUF_SIZE)) q1 (Some 0%nat) BUF_SIZE)
    as (_ & Hfst & Hread); [vm_compute; reflexivity|].
  split; [exact Hfst|]. split.
  - apply Hread; try reflexivity; vm_compute; lia.
  - apply Htwice. vm_compute. reflexivity.
Defined.

(** C8.  The call does write on the input text when the caller hands the
    buffer that holds the text over as error buffer too: the text [[]] at
    address 0, with that same address and 40 bytes as error buffer, is
    rejected, and what [json_string] points to afterwards is the diagnostic,
    no longer the text. *)
Theorem shared_buffer_overwrites_input :
  let r := validate_voicehealth_json Parser.cJSON_Parse shared_mem
             (Some 0%nat) (Some 0%nat) 40 in
  load_cstring shared_mem 0 = "[]"%string
  /\ fst r = 0
  /\ load_cstring (snd r) 0 = "Root must be a JSON object"%string
  /\ load_cstring (snd r) 0 <> load_cstring shared_mem 0.
Proof.
  vm_compute. repeat split; discriminate.
Qed.

Lemma test_buffer_keeps_input :
  load_cstring (snd (run_test bad_json)) 0 = bad_json
  /\ firstn (S (String.length bad_json)) (snd (run_test bad_json))
     = list_ascii_of_string bad_json ++ [NUL].
Proof.
  destruct (separate_buffer_keeps_input Parser.cJSON_Parse
              (test_mem bad_json) 0%nat (test_err bad_json) BUF_SIZE)
    as [Htext Hbytes].
  - left. right. right. vm_compute. lia.
  - split; [exact Htext|]. vm_compute. reflexivity.
Defined.

Lemma valid_run_writes_nothing : snd (run_test valid) = test_mem valid.
Proof.
  apply (success_leaves_buffer_untouched Parser.cJSON_Parse).
  vm_compute. reflexivity.
Defined.

(** *** test_validate.c *)

Example test_valid_json : fst (run_test valid) = 1.
Proof. vm_compute. reflexivity. Qed.

Example test_missing_severity :
  test_outcome missing_severity
  = (0, "Missing or invalid 'severity' (must be number)"%string).
Proof. vm_compute. reflexivity. Qed.

Example test_wrong_type_symptoms :
  test_outcome wrong_type = (0, "Missing or invalid 'symptoms' (must be array)"%string).
Proof. vm_compute. reflexivity. Qed.

Example test_bad_json : test_outcome bad_json = (0, "Malformed JSON"%string).
Proof. vm_compute. reflexivity. Qed.

Example test_severity_high :
  test_outcome severity_high = (0, "Severity must be between 0 and 10"%string).
Proof. vm_compute. reflexivity. Qed.

Example test_severity_neg :
  test_outcome severity_neg = (0, "Severity must be between 0 and 10"%string).
Proof. vm_compute. reflexivity. Qed.

Example test_missing_triggers :
  test_outcome missing_triggers
  = (0, "Missing or invalid 'potential_triggers' (must be array)"%string).
Proof. vm_compute. reflexivity. Qed.

(** Each of the seven failures is the outcome of some call. *)
Lemma each_failure_occurs (f : failure) :
  exists m js,
    spec_validate Parser.cJSON_Parse (input_of m js) = Invalid f.
Proof.
  destruct f.
  - exists [], None. reflexivity.
  - exists (test_mem bad_json), (Some 0%nat). vm_compute. reflexivity.
  - exists (test_mem array_root), (Some 0%nat). vm_compute. reflexivity.
  - exists (test_mem wrong_type), (Some 0%nat). vm_compute. reflexivity.
  - exists (test_mem missing_severity), (Some 0%nat). vm_compute. reflexivity.
  - exists (test_mem severity_high), (Some 0%nat). vm_compute. reflexivity.
  - exists (test_mem missing_triggers), (Some 0%nat). vm_compute. reflexivity.
Qed.

(** C5.  A call ends in one of eight outcomes, success or one of seven
    failures, and each failure reports its own verbatim diagnostic, which the
    caller reads back from the buffer; a root that is not an object gives
    "Root must be a JSON object"; and each of the seven failures occurs. *)
Theorem failures_are_seven_fixed_diagnostics :
  (forall (cJSON_Parse : string -> option cJSON) m js q n,
      let r := validate_voicehealth_json cJSON_Parse m js q n in
      let verdict := spec_validate cJSON_Parse (input_of m js) in
      (verdict = Valid -> r = (1, m))
      /\ (verdict = Invalid InputNull ->
          reports m q n r "Input string is null")
      /\ (verdict = Invalid MalformedJson ->
          reports m q n r "Malformed JSON")
      /\ (verdict = Invalid RootNotObject ->
          reports m q n r "Root must be a JSON object")
      /\ (verdict = Invalid SymptomsInvalid ->
          reports m q n r "Missing or invalid 'symptoms' (must be array)")
      /\ (verdict = Invalid SeverityInvalid ->
          reports m q n r "Missing or invalid 'severity' (must be number)")
      /\ (verdict = Invalid SeverityOutOfRange ->
          reports m q n r "Severity must be between 0 and 10")
      /\ (verdict = Invalid TriggersInvalid ->
          reports m q n r "Missing or invalid 'potential_triggers' (must be array)")
      /\ (r = (1, m)
          \/ exists f, In f check_order /\ reports m q n r (diagnostic f))
      /\ (js = None -> reports m q n r "Input string is null")
      /\ (forall p, js = Some p -> cJSON_Parse (load_cstring m p) = None ->
            reports m q n r "Malformed JSON")
      /\ (forall p root, js = Some p ->
            cJSON_Parse (load_cstring m p) = Some root ->
            cJSON_IsObject root = false ->
            reports m q n r "Root must be a JSON object"))
  /\ map diagnostic check_order
     = ["Input string is null"; "Malformed JSON"; "Root must be a JSON object";
        "Missing or invalid 'symptoms' (must be array)";
        "Missing or invalid 'severity' (must be number)";
        "Severity must be between 0 and 10";
        "Missing or invalid 'potential_triggers' (must be array)"]%string
  /\ NoDup (map diagnostic check_order)
  /\ (forall f, exists m js,
         spec_validate Parser.cJSON_Parse (input_of m js) = Invalid f).
Proof.
  split; [|split; [reflexivity|split]].
  - intros cJSON_Parse m js q n r verdict.
    assert (Hr : r = report m q n verdict) by apply validate_refines.
    assert (Hkind : forall f, verdict = Invalid f -> reports m q n r (diagnostic f)).
    { intros f E. rewrite Hr, E. apply reports_diagnostic. }
    split; [intros E; now rewrite Hr, E|].
    do 7 (split; [intros E; exact (Hkind _ E)|]).
    split; [|split; [|split]].
    + destruct verdict as [|f] eqn:E; [left; now rewrite Hr|].
      right. exists f. split; [destruct f; simpl; tauto | now apply Hkind].
    + intros ->. apply (Hkind InputNull). reflexivity.
    + intros p -> Hp. apply (Hkind MalformedJson).
      unfold verdict, spec_validate, check_order.
      cbn [input_of option_map find fails]. unfold parsed. now rewrite Hp.
    + intros p root -> Hp Ho. apply (Hkind RootNotObject).
      unfold verdict, spec_validate, check_order.
      cbn [input_of option_map find fails]. unfold parsed. now rewrite Hp, Ho.
  - simpl. repeat constructor; simpl; intuition discriminate.
  - exact each_failure_occurs.
Qed.

Lemma non_object_roots_run :
  reports (test_mem array_root) (test_err array_root) BUF_SIZE
    (run_test array_root) "Root must be a JSON object"
  /\ reports (test_mem number_root) (test_err number_root) BUF_SIZE
       (run_test number_root) "Root must be a JSON object"
  /\ test_outcome array_root = (0, "Root must be a JSON object"%string)
  /\ test_outcome number_root = (0, "Root must be a JSON object"%string).
Proof.
  pose proof (proj1 failures_are_seven_fixed_diagnostics Parser.cJSON_Parse) as H.
  assert (Ha : reports (test_mem array_root) (test_err array_root) BUF_SIZE
                 (run_test array_root) "Root must be a JSON object").
  { eapply (H (test_mem array_root) (Some 0%nat));
      [reflexivity | vm_compute; reflexivity | reflexivity]. }
  assert (Hn : reports (test_mem number_root) (test_err number_root) BUF_SIZE
                 (run_test number_root) "Root must be a JSON object").
  { eapply (H (test_mem number_root) (Some 0%nat));
      [reflexivity | vm_compute; reflexivity | reflexivity]. }
  split; [exact Ha|]. split; [exact Hn|].
  unfold test_outcome. split.
  - destruct Ha as [E Hback].
    destruct (Hback _ eq_refl) as [_ Hwhole]; [reflexivity | vm_compute; lia |].
    rewrite Hwhole by (vm_compute; lia). now rewrite E.
  - destruct Hn as [E Hback].
    destruct (Hback _ eq_refl) as [_ Hwhole]; [reflexivity | vm_compute; lia |].
    rewrite Hwhole by (vm_compute; lia). now rewrite E.
Defined.

(** ** Buffers, sizes and texts *)

Section BufferFacts.

Import Cli.

Local Open Scope nat_scope.

Lemma store_split (m : mem) :
  forall p bs, p + List.length bs <= List.length m ->
    store m p bs = firstn p m ++ bs ++ skipn (p + List.length bs) m.
Proof.
  induction m as [|x m IH]; intros p bs Hle; simpl in *.
  - assert (p = 0) by lia. subst p. destruct bs; simpl in *; [reflexivity | lia].
  - destruct p as [|p]; simpl.
    + destruct bs as [|b bs]; simpl; [reflexivity|].
      f_equal. rewrite (IH 0 bs) by (simpl in Hle; lia). reflexivity.
    + f_equal. apply IH. lia.
Qed.

(** Writing behind a prefix of the block leaves the prefix alone. *)
Lemma store_behind (done junk bs : list ascii) :
  List.length bs <= List.length junk ->
  store (done ++ junk) (List.length done) bs
  = (done ++ bs) ++ skipn (List.length bs) junk.
Proof.
  intros Hle. rewrite store_split by (rewrite length_app; lia).
  rewrite firstn_app, firstn_all, Nat.sub_diag, firstn_O, app_nil_r.
  rewrite skipn_app, skipn_all2 by lia.
  replace (List.length done + List.length bs - List.length done)
    with (List.length bs) by lia.
  now rewrite <- app_assoc.
Qed.

Lemma capacity_min (j : nat) : (4096 <= capacity j)%N.
Proof. induction j; cbn [capacity]; lia. Qed.

Lemma size_sub_small (a b : N) :
  (b <= a)%N -> (a < SIZE_MODULUS)%N -> size_sub a b = (a - b)%N.
Proof.
  intros Hb Ha. unfold size_sub.
  assert (E : (a + SIZE_MODULUS - b = (a - b) + 1 * SIZE_MODULUS)%N)
    by (unfold SIZE_MODULUS in *; lia).
  rewrite E, N.Div0.mod_add. apply N.mod_small. lia.
Qed.

Lemma size_add_small (a b : N) :
  (a + b < SIZE_MODULUS)%N -> size_add a b = (a + b)%N.
Proof. intros H. unfold size_add. now apply N.mod_small. Qed.

Lemma size_mul_small (a b : N) :
  (a * b < SIZE_MODULUS)%N -> size_mul a b = (a * b)%N.
Proof. intros H. unfold size_mul. now apply N.mod_small. Qed.

Lemma store_nothing (m : mem) : forall p, store m p [] = m.
Proof.
  induction m as [|x m IH]; intros [|p]; simpl; try reflexivity. now rewrite IH.
Qed.

Lemma cstring_cut (a b : list ascii) : cstring (a ++ NUL :: b) = cstring a.
Proof.
  induction a as [|c a IH]; simpl; [reflexivity|].
  destruct (Ascii.eqb c NUL); [reflexivity | now rewrite IH].
Qed.

(** [buf[i] == 0] says that the text at [i] is empty. *)
Lemma first_byte_of_text (m : mem) :
  forall i, Ascii.eqb (nth i m NUL) NUL = true <-> load_cstring m i = ""%string.
Proof.
  unfold load_cstring.
  induction m as [|x m IH]; intros [|i]; simpl; try tauto.
  - destruct (Ascii.eqb x NUL); split; auto; discriminate.
  - apply IH.
Qed.

Lemma diagnostic_fits_256 (f : failure) :
  String.length (diagnostic f) < N.to_nat 256.
Proof. destruct f; vm_compute; lia. Qed.

Lemma diagnostic_not_empty (f : failure) : diagnostic f <> ""%string.
Proof. destruct f; discriminate. Qed.

End BufferFacts.

(** ** The command-line wrapper reads all of its input *)

Section CliFacts.

Import Cli.

Variable cJSON_Parse : string -> option cJSON.
Variable alloc_ok : nat -> bool.
Variable heap_garbage : nat -> ascii.
Variable stack_garbage : nat -> ascii.

Local Open Scope nat_scope.

(** The loop never runs out of turns: each turn but the last takes a byte
    off the input. *)
Lemma read_loop_returns (fuel : nat) :
  forall allocs cap len buf rest,
    List.length rest < fuel ->
    read_loop alloc_ok heap_garbage fuel allocs cap len buf rest <> None.
Proof.
  induction fuel as [|fuel IH]; intros allocs cap len buf rest Hfuel; [lia|].
  cbn [read_loop].
  destruct (grow alloc_ok heap_garbage allocs cap len buf)
    as [[[[allocs' cap'] buf'] space]|]; [|discriminate].
  cbv zeta.
  destruct (N.eqb_spec (N.of_nat (List.length (firstn (N.to_nat space) rest))) 0)
    as [E|E]; [discriminate|].
  apply IH. rewrite length_firstn in E. rewrite length_skipn. lia.
Qed.

Lemma realloc_block_grows (buf : list ascii) (size : N) :
  List.length buf <= N.to_nat size ->
  exists more, realloc_block heap_garbage buf size = buf ++ more
               /\ List.length (buf ++ more) = N.to_nat size.
Proof.
  intros Hle. unfold realloc_block.
  rewrite firstn_all2 by assumption.
  eexists. split; [reflexivity|].
  rewrite length_app, length_map, length_seq. lia.
Qed.

Section Loop.

Variable stdin : list ascii.
Hypothesis stdin_fits :
  (N.of_nat (List.length stdin) + 2048 <= 9223372036854775808)%N.

Local Abbreviation at_turn := (at_turn alloc_ok stdin).

Lemma at_turn_no_wrap j done rest junk :
  at_turn j done rest junk -> (capacity j < SIZE_MODULUS)%N.
Proof.
  intros [Hin _ _ Hleast]. unfold SIZE_MODULUS.
  destruct j as [|j]; [cbn; lia|].
  specialize (Hleast j (Nat.lt_succ_diag_r j)).
  assert (N.of_nat (List.length done) <= N.of_nat (List.length stdin))%N
    by (rewrite Hin, length_app; lia).
  cbn [capacity]. lia.
Qed.

Lemma grow_spec j done rest junk :
  at_turn j done rest junk ->
  let len := N.of_nat (List.length done) in
  (grow alloc_ok heap_garbage (S j) (capacity j) len (done ++ junk) = None
   /\ alloc_ok (S j) = false /\ (capacity j < len + 2048)%N)
  \/ exists j' junk',
       grow alloc_ok heap_garbage (S j) (capacity j) len (done ++ junk)
       = Some (S j', capacity j', done ++ junk', (capacity j' - len)%N)
       /\ at_turn j' done rest junk'
       /\ (2048 <= capacity j' - len)%N.
Proof.
  intros Hturn len.
  pose proof (at_turn_no_wrap _ _ _ _ Hturn) as Hwrap.
  pose proof Hturn as [Hin Hblock Hallocs Hleast].
  assert (Hlen : (len <= capacity j)%N)
    by (unfold len; rewrite <- Hblock, length_app; lia).
  unfold grow.
  assert (Hstdin : (len <= N.of_nat (List.length stdin))%N)
    by (unfold len; rewrite Hin, length_app; lia).
  rewrite size_sub_small by assumption.
  destruct (N.ltb_spec (capacity j - len) 2048) as [Hsmall|Hroom].
  - destruct (alloc_ok (S j)) eqn:Hok.
    + right.
      rewrite size_mul_small by (unfold SIZE_MODULUS; lia).
      rewrite size_sub_small by (unfold SIZE_MODULUS; lia).
      destruct (realloc_block_grows (done ++ junk) (capacity j * 2))
        as (more & -> & Hmore); [lia|].
      exists (S j), (junk ++ more).
      replace (capacity j * 2)%N with (capacity (S j)) by (cbn [capacity]; lia).
      rewrite <- app_assoc. split; [reflexivity|]. split.
      * constructor; auto.
        -- rewrite app_assoc, Hmore. cbn [capacity]. lia.
        -- intros i Hi. destruct (Nat.eq_dec i (S j)) as [->|]; [exact Hok|].
           apply Hallocs. lia.
        -- intros i Hi. destruct (Nat.eq_dec i j) as [->|]; [lia|].
           apply Hleast. lia.
      * pose proof (capacity_min j). cbn [capacity]. lia.
    + left. split; [reflexivity|]. split; [reflexivity | lia].
  - right. exists j, junk. repeat split; auto.
Qed.

Lemma read_loop_spec (fuel : nat) :
  forall j done rest junk,
    at_turn j done rest junk ->
    List.length rest < fuel ->
    exists r,
      read_loop alloc_ok heap_garbage fuel (S j) (capacity j)
        (N.of_nat (List.length done)) (done ++ junk) rest = Some r
      /\ read_outcome alloc_ok stdin r.
Proof.
  induction fuel as [|fuel IH]; intros j done rest junk Hturn Hfuel; [lia|].
  cbn [read_loop].
  assert (Hdone : (N.of_nat (List.length done) <= N.of_nat (List.length stdin))%N)
    by (rewrite (turn_input _ _ _ _ _ _ Hturn), length_app; lia).
  destruct (grow_spec j done rest junk Hturn)
    as [(E & Hfail & Hsmall) | (j' & junk' & E & Hturn' & Hroom)]; rewrite E.
  - exists ReadNull. split; [reflexivity|]. left. split; [reflexivity|].
    exists (S j). split; [exact Hfail|]. intros i Hi. split.
    + apply (turn_allocs _ _ _ _ _ _ Hturn). lia.
    + destruct (Nat.eq_dec i j) as [->|]; [lia|].
      pose proof (turn_least _ _ _ _ _ _ Hturn i). lia.
  - cbv zeta.
    pose proof Hturn' as [Hin Hblock Hallocs Hleast].
    rewrite length_app in Hblock.
    set (space := (capacity j' - N.of_nat (List.length done))%N) in *.
    set (chunk := firstn (N.to_nat space) rest).
    assert (Hchunk : List.length chunk <= List.length junk')
      by (unfold chunk; rewrite length_firstn; lia).
    rewrite Nat2N.id.
    rewrite store_behind by exact Hchunk.
    rewrite size_add_small
      by (pose proof (at_turn_no_wrap _ _ _ _ Hturn'); unfold SIZE_MODULUS in *; lia).
    destruct (N.eqb_spec (N.of_nat (List.length chunk)) 0) as [Hn|Hn].
    + assert (Hrest : rest = []).
      { destruct rest as [|c rest]; [reflexivity|]. exfalso.
        unfold chunk in Hn. rewrite length_firstn in Hn. simpl in Hn. lia. }
      assert (Hnil : chunk = []) by (destruct chunk; [reflexivity | simpl in Hn; lia]).
      rewrite Hnil, app_nil_r, N.add_0_r. cbn [List.length skipn].
      subst rest. rewrite app_nil_r in Hin. subst done.
      unfold read_finish.
      rewrite size_add_small by (unfold SIZE_MODULUS; lia).
      destruct (N.ltb_spec (capacity j') (N.of_nat (List.length stdin) + 1)); [lia|].
      rewrite Nat2N.id, store_behind by (simpl; lia).
      rewrite <- app_assoc. cbn [app].
      eexists. split; [reflexivity|]. right.
      exists (skipn 1 junk'), j'. split; [reflexivity|].
      split; [|split; [lia | split; assumption]].
      rewrite length_app. cbn [List.length]. rewrite length_skipn. lia.
    + destruct (IH j' (done ++ chunk) (skipn (N.to_nat space) rest)
                  (skipn (List.length chunk) junk')) as (r & Hr & Hout).
      * constructor.
        -- rewrite <- app_assoc. unfold chunk. now rewrite firstn_skipn.
        -- rewrite !length_app, length_skipn. lia.
        -- exact Hallocs.
        -- intros i Hi. specialize (Hleast i Hi). rewrite length_app. lia.
      * rewrite length_skipn. unfold chunk in Hn. rewrite length_firstn in Hn. lia.
      * exists r. split; [|exact Hout].
        rewrite <- Hr. f_equal. rewrite length_app. lia.
Qed.

End Loop.

Lemma read_all_stdin_outcome (stdin : list ascii) :
  (N.of_nat (List.length stdin) + 2048 <= 9223372036854775808)%N ->
  exists r, read_all_stdin alloc_ok heap_garbage stdin = Some r
            /\ read_outcome alloc_ok stdin r.
Proof.
  intros Hfits. unfold read_all_stdin.
  destruct (alloc_ok 0) eqn:Hok.
  - apply (read_loop_spec stdin Hfits (S (List.length stdin)) 0 [] stdin
             (malloc_block heap_garbage 4096)); [|lia].
    constructor.
    + reflexivity.
    + unfold malloc_block. cbn [app]. rewrite length_map, length_seq. reflexivity.
    + intros i Hi. now replace i with 0 by lia.
    + intros i Hi. lia.
  - exists ReadNull. split; [reflexivity|]. left. split; [reflexivity|].
    exists 0. split; [exact Hok|]. intros i Hi. lia.
Qed.

(** A text, whatever it is, is not reported as a null input. *)
Lemma text_is_not_null (text : string) :
  spec_validate cJSON_Parse (Some text) <> Invalid InputNull.
Proof.
  unfold spec_validate, check_order. cbn [find fails].
  repeat match goal with
         | |- context [if ?b then _ else _] => destruct b
         end; discriminate.
Qed.

(** With the buffer [json] in hand, [main] prints the verdict on the text in
    it, and the whole diagnostic when there is one. *)
Lemma main_after_read (stdin json : list ascii) (len : N) :
  read_all_stdin alloc_ok heap_garbage stdin = Some (ReadOk json len) ->
  len <> 0%N ->
  main cJSON_Parse alloc_ok heap_garbage stack_garbage stdin
  = Some (cli_report (spec_validate cJSON_Parse (Some (cstring json)))).
Proof.
  intros Hread Hlen. unfold main. rewrite Hread.
  destruct (N.eqb_spec len 0) as [|_]; [contradiction|].
  set (err := store (map stack_garbage (seq 0 256)) 0 [NUL]).
  assert (Herr : err = NUL :: skipn 1 (map stack_garbage (seq 0 256)))
    by reflexivity.
  assert (Hsize : List.length err = 256)
    by (unfold err; rewrite store_length, length_map, length_seq; reflexivity).
  rewrite validate_refines.
  assert (Hin : input_of (json ++ err) (Some 0) = Some (cstring json)).
  { cbn [input_of option_map]. unfold load_cstring. cbn [skipn].
    rewrite Herr. now rewrite cstring_cut. }
  rewrite Hin.
  destruct (spec_validate cJSON_Parse (Some (cstring json))) as [|f];
    cbn [report cli_report]; [reflexivity|].
  cbn [Z.eqb negb].
  assert (Hback : load_cstring
                    (set_error (json ++ err) (Some (List.length json)) 256 (diagnostic f))
                    (List.length json) = diagnostic f).
  { apply set_error_readback_whole; [apply diagnostic_fits_256|].
    rewrite length_app, Hsize. reflexivity. }
  rewrite Hback.
  destruct (Ascii.eqb (nth _ _ NUL) NUL) eqn:E; [|reflexivity].
  apply first_byte_of_text in E. rewrite Hback in E.
  now apply diagnostic_not_empty in E.
Qed.

(** With every allocation succeeding, the outcome is the buffer. *)
Lemma read_all_stdin_allocating (stdin : list ascii) :
  (N.of_nat (List.length stdin) + 2048 <= 9223372036854775808)%N ->
  (forall k, alloc_ok k = true) ->
  exists tail,
    read_all_stdin alloc_ok heap_garbage stdin
    = Some (ReadOk (stdin ++ NUL :: tail) (N.of_nat (List.length stdin))).
Proof.
  intros Hfits Hok.
  destruct (read_all_stdin_outcome stdin Hfits) as (r & Hr & Hout).
  destruct Hout as [(_ & j & Hj & _) | (tail & j & -> & _)];
    [rewrite Hok in Hj; discriminate|].
  now exists tail.
Qed.

(** X1.  When the allocations up to the least capacity [4096 * 2^j] that
    holds the input with 2048 bytes to spare succeed, [read_all_stdin]
    returns a block of that capacity that starts with the whole input and a
    terminator, and the length of the input. *)
Theorem read_all_stdin_reads_everything (stdin : list ascii) (j : nat) :
  let L := N.of_nat (List.length stdin) in
  (L + 2048 <= 9223372036854775808)%N ->
  (L + 2048 <= capacity j)%N ->
  (forall i, i < j -> (capacity i < L + 2048)%N) ->
  (forall i, i <= j -> alloc_ok i = true) ->
  exists tail,
    read_all_stdin alloc_ok heap_garbage stdin = Some (ReadOk (stdin ++ NUL :: tail) L)
    /\ N.of_nat (List.length (stdin ++ NUL :: tail)) = capacity j
    /\ load_cstring (stdin ++ NUL :: tail) 0 = cstring stdin.
Proof.
  intros L Hfits Hroom Hleast Hok.
  destruct (read_all_stdin_outcome stdin Hfits) as (r & Hr & Hout).
  destruct Hout as [(_ & j0 & Hj0 & Hbefore)
                   | (tail & j' & -> & Hblock & Hroom' & _ & Hleast')].
  - exfalso. destruct (Nat.le_gt_cases j0 j) as [Hle|Hgt].
    + rewrite Hok in Hj0 by exact Hle. discriminate.
    + destruct (Hbefore j Hgt) as [_ Hsmall]. fold L in Hsmall. lia.
  - exists tail. split; [exact Hr|]. split.
    + rewrite Hblock. fold L in Hroom', Hleast'.
      destruct (Nat.lt_trichotomy j' j) as [Hlt|[->|Hgt]]; [|reflexivity|].
      * specialize (Hleast j' Hlt). lia.
      * specialize (Hleast' j Hgt). lia.
    + unfold load_cstring. cbn [skipn]. apply cstring_cut.
Qed.

(** X2.  [read_all_stdin] returns [NULL] exactly when an allocation fails
    that the input needs: the first [malloc], or a doubling asked for because
    every capacity before it is too small for the input and 2048 bytes. *)
Theorem read_all_stdin_null_iff (stdin : list ascii) :
  let L := N.of_nat (List.length stdin) in
  (L + 2048 <= 9223372036854775808)%N ->
  (read_all_stdin alloc_ok heap_garbage stdin = Some ReadNull
   <-> exists j, alloc_ok j = false
                 /\ forall i, i < j -> alloc_ok i = true /\ (capacity i < L + 2048)%N).
Proof.
  intros L Hfits.
  destruct (read_all_stdin_outcome stdin Hfits) as (r & Hr & Hout).
  rewrite Hr. fold L in Hout.
  destruct Hout as [(-> & Hj) | (tail & j' & -> & _ & Hroom & Hok & _)].
  - split; [intros _; exact Hj | reflexivity].
  - split; [discriminate|]. intros (j & Hj & Hbefore). exfalso.
    destruct (Nat.le_gt_cases j j') as [Hle|Hgt].
    + rewrite Hok in Hj by exact Hle. discriminate.
    + destruct (Hbefore j' Hgt) as [_ Hsmall]. lia.
Qed.

(** X3.  The program as a whole, when its allocations succeed: no input is
    a usage error, and any other input gets the verdict of the validator on
    its text up to the first NUL byte, with the diagnostic in full. *)
Theorem main_reports_the_verdict (stdin : list ascii) :
  (N.of_nat (List.length stdin) + 2048 <= 9223372036854775808)%N ->
  (forall k, alloc_ok k = true) ->
  main cJSON_Parse alloc_ok heap_garbage stack_garbage stdin
  = Some (match stdin with
          | [] => Exit 2 "" ("No input provided on stdin" ++ LF)
          | _ => cli_report (spec_validate cJSON_Parse (Some (cstring stdin)))
          end).
Proof.
  intros Hfits Hok.
  destruct (read_all_stdin_allocating stdin Hfits Hok) as (tail & Hr).
  destruct stdin as [|c stdin].
  - unfold main. now rewrite Hr.
  - rewrite (main_after_read _ _ _ Hr) by (cbn [List.length]; lia).
    now rewrite cstring_cut.
Qed.

(** X5.  What follows the first NUL byte of the input plays no part, as
    long as there is memory to read it: two inputs with the same text in
    front of it, both read without [read_all_stdin] returning [NULL], get the
    same run. *)
Theorem main_stops_at_first_NUL (stdin1 stdin2 : list ascii) :
  (N.of_nat (List.length stdin1) + 2048 <= 9223372036854775808)%N ->
  (N.of_nat (List.length stdin2) + 2048 <= 9223372036854775808)%N ->
  read_all_stdin alloc_ok heap_garbage stdin1 <> Some ReadNull ->
  read_all_stdin alloc_ok heap_garbage stdin2 <> Some ReadNull ->
  stdin1 <> [] -> stdin2 <> [] ->
  cstring stdin1 = cstring stdin2 ->
  main cJSON_Parse alloc_ok heap_garbage stack_garbage stdin1
  = main cJSON_Parse alloc_ok heap_garbage stack_garbage stdin2.
Proof.
  intros Hfits1 Hfits2 Hread1 Hread2 Hne1 Hne2 Htext.
  destruct (read_all_stdin_outcome stdin1 Hfits1) as (r1 & Hr1 & Hout1).
  destruct (read_all_stdin_outcome stdin2 Hfits2) as (r2 & Hr2 & Hout2).
  destruct Hout1 as [(-> & _) | (tail1 & j1 & -> & _)]; [contradiction|].
  destruct Hout2 as [(-> & _) | (tail2 & j2 & -> & _)]; [contradiction|].
  rewrite (main_after_read _ _ _ Hr1) by (destruct stdin1; [congruence | cbn; lia]).
  rewrite (main_after_read _ _ _ Hr2) by (destruct stdin2; [congruence | cbn; lia]).
  now rewrite !cstring_cut, Htext.
Qed.

(** X6.  When an allocation the input needs fails, the program gives up
    with exit code 2 and "Failed to read stdin", and prints no verdict. *)
Theorem main_gives_up_without_memory (stdin : list ascii) (j : nat) :
  let L := N.of_nat (List.length stdin) in
  (L + 2048 <= 9223372036854775808)%N ->
  alloc_ok j = false ->
  (forall i, i < j -> (capacity i < L + 2048)%N) ->
  main cJSON_Parse alloc_ok heap_garbage stack_garbage stdin
  = Some (Exit 2 "" ("Failed to read stdin" ++ LF)).
Proof.
  intros L Hfits Hfail Hneeded.
  destruct (read_all_stdin_outcome stdin Hfits) as (r & Hr & Hout).
  fold L in Hout. unfold main. rewrite Hr.
  destruct Hout as [(-> & _) | (tail & j' & -> & _ & Hroom & Hok & _)];
    [reflexivity|].
  exfalso. destruct (Nat.le_gt_cases j j') as [Hle|Hgt].
  - rewrite Hok in Hfail by exact Hle. discriminate.
  - specialize (Hneeded j' Hgt). lia.
Qed.

(** X4.  Exit codes and streams go together, whatever the input, the allocator
    and the bytes lying around: 0 with "1", 1 with "0" and one diagnostic of
    the validator on a text, 2 with nothing on the standard output. *)
Theorem main_exit_contract (stdin : list ascii) :
  exists r,
    main cJSON_Parse alloc_ok heap_garbage stack_garbage stdin = Some r
    /\ ((exit_code r = 0%Z /\ stdout r = ("1" ++ LF)%string /\ stderr r = ""%string)
        \/ (exit_code r = 1%Z /\ stdout r = ("0" ++ LF)%string
            /\ exists f, f <> InputNull /\ stderr r = (diagnostic f ++ LF)%string)
        \/ (exit_code r = 2%Z /\ stdout r = ""%string
            /\ (stderr r = ("Failed to read stdin" ++ LF)%string
                \/ stderr r = ("No input provided on stdin" ++ LF)%string))).
Proof.
  destruct (read_all_stdin alloc_ok heap_garbage stdin) as [[|json len]|] eqn:Hread.
  - unfold main. rewrite Hread. eexists. split; [reflexivity|].
    right. right. cbn. auto.
  - destruct (N.eq_dec len 0) as [->|Hlen].
    + unfold main. rewrite Hread. eexists. split; [reflexivity|].
      right. right. cbn. auto.
    + rewrite (main_after_read _ _ _ Hread Hlen).
      eexists. split; [reflexivity|].
      destruct (spec_validate cJSON_Parse (Some (cstring json))) as [|f] eqn:Hv.
      * left. cbn. auto.
      * right. left. cbn. repeat split. exists f. split; [|reflexivity].
        intros ->. now apply text_is_not_null in Hv.
  - exfalso. revert Hread. unfold read_all_stdin.
    destruct (alloc_ok 0); [|discriminate].
    apply read_loop_returns. lia.
Qed.

End CliFacts.

(** ** More on the validator's verdicts *)

Section Verdicts.

Variable cJSON_Parse : string -> option cJSON.

Local Abbreviation validate := (validate_voicehealth_json cJSON_Parse).

(** X7.  Success is never granted by mistake: a call that returns 1 was
    given a text that parses as an object whose "symptoms" and
    "potential_triggers" are arrays and whose "severity" is a number that is
    neither below 0 nor above 10. *)
Theorem success_means_schema_holds (m : mem) (js q : ptr) (n : N) :
  fst (validate m js q n) = 1 ->
  exists p root symptoms severity triggers,
    js = Some p
    /\ cJSON_Parse (load_cstring m p) = Some root
    /\ cJSON_IsObject root = true
    /\ maps_to root "symptoms" symptoms /\ cJSON_IsArray symptoms = true
    /\ maps_to root "severity" severity /\ cJSON_IsNumber severity = true
    /\ maps_to root "potential_triggers" triggers /\ cJSON_IsArray triggers = true
    /\ (forall sign, valuedouble severity <> S754_infinity sign)
    /\ (is_double (valuedouble severity) ->
        is_finite (valuedouble severity) = true ->
        (0 <= B2Q (valuedouble severity) /\ B2Q (valuedouble severity) <= 10)%Q).
Proof.
  unfold validate_voicehealth_json.
  destruct js as [p|]; [|discriminate].
  destruct (cJSON_Parse (load_cstring m p)) as [root|] eqn:Hp; [|discriminate].
  destruct (cJSON_IsObject root) eqn:Ho; [|discriminate]. cbn [negb].
  destruct (cJSON_GetObjectItemCaseSensitive root "symptoms") as [sy|] eqn:Hsy;
    [|discriminate].
  destruct (cJSON_IsArray sy) eqn:Hsya; [|discriminate]. cbn [negb].
  destruct (cJSON_GetObjectItemCaseSensitive root "severity") as [sv|] eqn:Hsv;
    [|discriminate].
  destruct (cJSON_IsNumber sv) eqn:Hsvn; [|discriminate]. cbn [negb].
  destruct (SFltb (valuedouble sv) (double_of_int SEVERITY_MIN)
            || SFltb (double_of_int SEVERITY_MAX) (valuedouble sv)) eqn:Hrange;
    [discriminate|].
  destruct (cJSON_GetObjectItemCaseSensitive root "potential_triggers") as [tr|] eqn:Htr;
    [|discriminate].
  destruct (cJSON_IsArray tr) eqn:Htra; [|discriminate]. intros _.
  exists p, root, sy, sv, tr.
  repeat (split; [first [reflexivity | assumption | now apply lookup_maps_to]|]).
  apply orb_false_iff in Hrange as [Hlow Hhigh]. split.
  - intros sign E. rewrite E in Hlow, Hhigh.
    pose proof (infinity_out_of_range sign) as H.
    rewrite Hlow, Hhigh in H. discriminate.
  - intros Hd Hf. split.
    + apply Qnot_lt_le. intros H. apply below_MIN_iff in H; [|exact Hf]. congruence.
    + apply Qnot_lt_le. intros H. apply above_MAX_iff in H; [|exact Hd|exact Hf].
      congruence.
Qed.

(** A lookup finds the first member of the name; with every member named
    and no name used twice, that is the only member of the name. *)
Lemma get_object_item_unique (name : string) (l : list cJSON) (c : cJSON) :
  (forall x, In x l -> string_ x <> None) ->
  NoDup (map string_ l) ->
  In c l -> string_ c = Some name ->
  get_object_item l name = Some c.
Proof.
  induction l as [|x l IH]; intros Hnamed Hnodup Hin Hc; [destruct Hin|].
  cbn [get_object_item]. cbn [map] in Hnodup. inversion Hnodup as [|? ? Hx Hl]; subst.
  destruct (string_ x) as [k|] eqn:Hk; [|now destruct (Hnamed x (or_introl eq_refl))].
  destruct (String.eqb_spec name k) as [->|Hne].
  - destruct Hin as [->|Hin]; [reflexivity|].
    exfalso. apply Hx. rewrite <- Hc. now apply in_map.
  - destruct Hin as [->|Hin]; [congruence|].
    apply IH; auto. intros y Hy. apply Hnamed. now right.
Qed.

Lemma get_object_item_found (name : string) (l : list cJSON) (c : cJSON) :
  get_object_item l name = Some c -> In c l /\ string_ c = Some name.
Proof.
  induction l as [|x l IH]; simpl; [discriminate|].
  destruct (string_ x) as [k|] eqn:Hk; [|discriminate].
  destruct (String.eqb_spec name k) as [->|_].
  - intros [= <-]. auto.
  - intros H. destruct (IH H). auto.
Qed.

Lemma get_object_item_none (name : string) (l : list cJSON) :
  (forall x, In x l -> string_ x <> None) ->
  get_object_item l name = None ->
  forall x, In x l -> string_ x <> Some name.
Proof.
  induction l as [|x l IH]; intros Hnamed Hnone y Hy; [destruct Hy|].
  cbn [get_object_item] in Hnone.
  destruct (string_ x) as [k|] eqn:Hk; [|now destruct (Hnamed x (or_introl eq_refl))].
  destruct (String.eqb_spec name k) as [->|Hne]; [discriminate|].
  destruct Hy as [<-|Hy]; [congruence|].
  apply IH; auto. intros z Hz. apply Hnamed. now right.
Qed.

(** With every member named and no name used twice, the order of the
    members does not matter to a lookup. *)
Lemma get_object_item_permutation (name : string) (l l' : list cJSON) :
  (forall x, In x l -> string_ x <> None) ->
  NoDup (map string_ l) ->
  Permutation l l' ->
  get_object_item l' name = get_object_item l name.
Proof.
  intros Hnamed Hnodup Hperm.
  assert (Hnamed' : forall x, In x l' -> string_ x <> None).
  { intros x Hx. apply Hnamed. eapply Permutation_in; [symmetry|]; eassumption. }
  assert (Hnodup' : NoDup (map string_ l')).
  { eapply Permutation_NoDup; [apply Permutation_map|]; eassumption. }
  destruct (get_object_item l name) as [c|] eqn:E.
  - apply get_object_item_found in E as [Hin Hc].
    apply get_object_item_unique; auto.
    eapply Permutation_in; eassumption.
  - destruct (get_object_item l' name) as [c|] eqn:E'; [|reflexivity].
    apply get_object_item_found in E' as [Hin Hc].
    exfalso. eapply (get_object_item_none name l); eauto.
    eapply Permutation_in; [symmetry|]; eassumption.
Qed.

(** X8.  The order of the members of the root object does not matter: two
    texts whose roots agree but for the order of their members, all named
    and no name used twice, get the same verdict, the same [int] and the same
    diagnostic. *)
Theorem member_order_is_irrelevant
    (m1 m2 : mem) (p1 p2 : nat) (q1 q2 : ptr) (n : N) (root1 root2 : cJSON) :
  cJSON_Parse (load_cstring m1 p1) = Some root1 ->
  cJSON_Parse (load_cstring m2 p2) = Some root2 ->
  type root1 = type root2 ->
  Permutation (child root1) (child root2) ->
  (forall c, In c (child root1) -> string_ c <> None) ->
  NoDup (map string_ (child root1)) ->
  exists v, validate m1 (Some p1) q1 n = report m1 q1 n v
            /\ validate m2 (Some p2) q2 n = report m2 q2 n v.
Proof.
  intros Hp1 Hp2 Htype Hperm Hnamed Hnodup.
  exists (spec_validate cJSON_Parse (input_of m1 (Some p1))).
  split; [apply validate_refines|].
  rewrite validate_refines. f_equal.
  unfold spec_validate, check_order.
  cbn [input_of option_map find fails]. unfold member, parsed.
  rewrite Hp1, Hp2.
  unfold cJSON_IsObject, cJSON_GetObjectItemCaseSensitive.
  rewrite Htype.
  now rewrite !(get_object_item_permutation _ _ _ Hnamed Hnodup Hperm).
Qed.

(** X9.  Members behind the three required ones are not looked at: when the
    root has members named "symptoms", "severity" and "potential_triggers",
    appending further members, whatever their names and values, leaves the
    verdict as it is. *)
Theorem appended_members_are_ignored
    (m1 m2 : mem) (p1 p2 : nat) (q1 q2 : ptr) (n : N)
    (root1 root2 : cJSON) (more : list cJSON) :
  cJSON_Parse (load_cstring m1 p1) = Some root1 ->
  cJSON_Parse (load_cstring m2 p2) = Some root2 ->
  type root1 = type root2 ->
  child root2 = child root1 ++ more ->
  (forall name, In name ["symptoms"; "severity"; "potential_triggers"]%string ->
     exists c, maps_to root1 name c) ->
  exists v, validate m1 (Some p1) q1 n = report m1 q1 n v
            /\ validate m2 (Some p2) q2 n = report m2 q2 n v.
Proof.
  intros Hp1 Hp2 Htype Hmore Hpresent.
  exists (spec_validate cJSON_Parse (input_of m1 (Some p1))).
  split; [apply validate_refines|].
  rewrite validate_refines. f_equal.
  assert (Hsame : forall name,
             In name ["symptoms"; "severity"; "potential_triggers"]%string ->
             cJSON_GetObjectItemCaseSensitive root2 name
             = cJSON_GetObjectItemCaseSensitive root1 name).
  { intros name Hname. destruct (Hpresent name Hname) as (c & Hc).
    rewrite (maps_to_lookup _ _ _ Hc).
    destruct Hc as (before & after & Hchild & Hit & Hb).
    apply maps_to_lookup. exists before, (after ++ more).
    rewrite Hmore, Hchild, <- app_assoc. auto. }
  unfold spec_validate, check_order.
  cbn [input_of option_map find fails]. unfold member, parsed.
  rewrite Hp1, Hp2. unfold cJSON_IsObject. rewrite Htype.
  rewrite !Hsame by (cbn; auto). reflexivity.
Qed.

Lemma get_object_item_at_a_glance (name : string) (l l' : list cJSON) :
  Forall2 same_at_a_glance l l' ->
  match get_object_item l name, get_object_item l' name with
  | Some c, Some c' => same_at_a_glance c c'
  | None, None => True
  | _, _ => False
  end.
Proof.
  induction 1 as [|c c' l l' Hc _ IH]; cbn [get_object_item]; [exact I|].
  destruct Hc as (Hname & Htype & Hvalue). rewrite <- Hname.
  destruct (string_ c) as [k|] eqn:Hk; [|exact I].
  destruct (String.eqb name k); [|exact IH].
  unfold same_at_a_glance. repeat split; congruence.
Qed.

(** X11.  Of a member the validator sees its name, its type and, for the
    severity, its number: what is inside the arrays, and every other field of
    the nodes, is not inspected.  Two roots whose members agree in name, type
    and number one by one get the same verdict. *)
Theorem member_contents_are_not_inspected
    (m1 m2 : mem) (p1 p2 : nat) (q1 q2 : ptr) (n : N) (root1 root2 : cJSON) :
  cJSON_Parse (load_cstring m1 p1) = Some root1 ->
  cJSON_Parse (load_cstring m2 p2) = Some root2 ->
  type root1 = type root2 ->
  Forall2 same_at_a_glance (child root1) (child root2) ->
  exists v, validate m1 (Some p1) q1 n = report m1 q1 n v
            /\ validate m2 (Some p2) q2 n = report m2 q2 n v.
Proof.
  intros Hp1 Hp2 Htype Hsame.
  exists (spec_validate cJSON_Parse (input_of m1 (Some p1))).
  split; [apply validate_refines|].
  rewrite validate_refines. f_equal.
  unfold spec_validate, check_order.
  cbn [input_of option_map find fails]. unfold member, parsed.
  rewrite Hp1, Hp2.
  unfold cJSON_IsObject, cJSON_IsArray, cJSON_IsNumber,
    cJSON_GetObjectItemCaseSensitive.
  rewrite Htype.
  pose proof (get_object_item_at_a_glance "symptoms" _ _ Hsame) as Hsy.
  pose proof (get_object_item_at_a_glance "severity" _ _ Hsame) as Hsv.
  pose proof (get_object_item_at_a_glance "potential_triggers" _ _ Hsame) as Htr.
  destruct (get_object_item (child root1) "symptoms") as [sy|],
           (get_object_item (child root2) "symptoms") as [sy'|];
    try contradiction;
  destruct (get_object_item (child root1) "severity") as [sv|],
           (get_object_item (child root2) "severity") as [sv'|];
    try contradiction;
  destruct (get_object_item (child root1) "potential_triggers") as [tr|],
           (get_object_item (child root2) "potential_triggers") as [tr'|];
    try contradiction;
  repeat match goal with
         | H : same_at_a_glance _ _ |- _ =>
             let Ht := fresh in
             let Hv := fresh in
             destruct H as (_ & Ht & Hv); rewrite ?Ht, ?Hv
         end;
  reflexivity.
Qed.

End Verdicts.

(** ** The test program shows each call's verdict *)

Section TestFacts.

Import TestValidate.

Variable cJSON_Parse : string -> option cJSON.

Local Open Scope nat_scope.

Lemma string_append_assoc (a b c : string) :
  ((a ++ b) ++ c = a ++ (b ++ c))%string.
Proof. induction a as [|x a IH]; simpl; [reflexivity | now rewrite IH]. Qed.

Lemma string_append_empty (a : string) : (a ++ "" = a)%string.
Proof. induction a as [|x a IH]; simpl; [reflexivity | now rewrite IH]. Qed.

(** The literals are read whatever [err] holds. *)
Lemma literal_text (e : list ascii) (i : nat) :
  i < 6 -> load_cstring (rodata ++ e) (literal i) = nth i literals ""%string.
Proof.
  intros Hi.
  do 6 (destruct i as [|i]; [vm_compute; reflexivity|]). lia.
Qed.

Lemma diagnostic_fits_BUF_SIZE (f : failure) :
  String.length (diagnostic f) < N.to_nat BUF_SIZE.
Proof. destruct f; vm_compute; lia. Qed.

(** A diagnostic sent to [err] stays in [err]. *)
Lemma set_error_in_err (e : list ascii) (f : failure) :
  List.length e = N.to_nat BUF_SIZE ->
  exists e', List.length e' = N.to_nat BUF_SIZE
             /\ set_error (rodata ++ e) (Some err) BUF_SIZE (diagnostic f) = rodata ++ e'.
Proof.
  intros He. unfold set_error, snprintf_s, err.
  pose proof (eq_refl : N.to_nat BUF_SIZE = 128) as HB.
  change (0 <? BUF_SIZE)%N with true. change (BUF_SIZE =? 0)%N with false. cbv iota.
  set (w := firstn (N.to_nat BUF_SIZE - 1) (list_ascii_of_string (diagnostic f)) ++ [NUL]).
  assert (Hw : List.length w <= List.length e).
  { unfold w. rewrite length_app, length_firstn, He. simpl List.length. lia. }
  rewrite store_behind by exact Hw. rewrite <- app_assoc.
  eexists. split; [|reflexivity].
  rewrite length_app, length_skipn. lia.
Qed.


(** What one expected failure does to the program's state. *)
Lemma expect_invalid_step (label : string) (i : nat) (e : list ascii) (out : string) :
  i < 6 -> List.length e = N.to_nat BUF_SIZE ->
  exists e', List.length e' = N.to_nat BUF_SIZE
             /\ expect_invalid cJSON_Parse label (literal i) (rodata ++ e, out)
                = (rodata ++ e',
                   (out ++ invalid_lines label
                             (spec_validate cJSON_Parse (Some (nth i literals ""))))%string).
Proof.
  intros Hi He. unfold expect_invalid.
  pose proof (eq_refl : N.to_nat BUF_SIZE = 128) as HB.
  assert (He0 : exists e0, List.length (NUL :: e0) = N.to_nat BUF_SIZE
                           /\ store (rodata ++ e) err [NUL] = rodata ++ NUL :: e0).
  { unfold err. rewrite store_behind by (simpl List.length; lia).
    rewrite <- app_assoc. exists (skipn 1 e).
    split; [cbn [List.length]; rewrite length_skipn; lia | reflexivity]. }
  destruct He0 as (e0 & He0 & ->).
  rewrite validate_refines.
  cbn [input_of option_map]. rewrite literal_text by exact Hi.
  destruct (spec_validate cJSON_Parse (Some (nth i literals ""%string))) as [|f];
    cbn [report].
  - exists (NUL :: e0). split; [exact He0|].
    replace (nth err (rodata ++ NUL :: e0) NUL) with NUL
      by (unfold err; now rewrite app_nth2, Nat.sub_diag by lia).
    rewrite Ascii.eqb_refl. unfold invalid_lines. cbn [is_valid negb Z.eqb].
    now rewrite ?string_append_assoc, ?string_append_empty.
  - destruct (set_error_in_err (NUL :: e0) f He0) as (e' & He' & Hset).
    assert (Hback : load_cstring (rodata ++ e') err = diagnostic f).
    { rewrite <- Hset. apply set_error_readback_whole.
      - apply diagnostic_fits_BUF_SIZE.
      - unfold err. rewrite length_app. lia. }
    rewrite Hset, Hback. exists e'. split; [exact He'|].
    destruct (Ascii.eqb (nth err (rodata ++ e') NUL) NUL) eqn:E.
    + apply first_byte_of_text in E. rewrite Hback in E.
      now apply diagnostic_not_empty in E.
    + unfold invalid_lines. cbn [is_valid negb Z.eqb].
      now rewrite ?string_append_assoc.
Qed.

(** What the expected success does to the program's state. *)
Lemma expect_valid_step (label : string) (i : nat) (e : list ascii) (out : string) :
  i < 6 -> List.length e = N.to_nat BUF_SIZE ->
  exists e', List.length e' = N.to_nat BUF_SIZE
             /\ expect_valid cJSON_Parse label (literal i) (rodata ++ e, out)
                = (rodata ++ e',
                   (out ++ valid_line label
                             (spec_validate cJSON_Parse (Some (nth i literals ""))))%string).
Proof.
  intros Hi He. unfold expect_valid.
  rewrite validate_refines.
  cbn [input_of option_map]. rewrite literal_text by exact Hi.
  destruct (spec_validate cJSON_Parse (Some (nth i literals ""%string))) as [|f];
    cbn [report].
  - exists e. split; [exact He|]. reflexivity.
  - destruct (set_error_in_err e f He) as (e' & He' & ->).
    exists e'. split; [exact He'|]. reflexivity.
Qed.

(** X10.  The test program prints, for each of its six calls in turn, PASS
    or FAIL as the verdict on that call's text meets what the line expects,
    and under a failing call the diagnostic of that very call, never one left
    in [err] by an earlier call; it returns 0.  This holds whatever the
    parser answers and whatever [err] held at the start. *)
Theorem test_program_reports_each_verdict (stack_garbage : nat -> ascii) :
  let verdict (text : string) := spec_validate cJSON_Parse (Some text) in
  TestValidate.main cJSON_Parse stack_garbage
  = (0%Z,
     (valid_line "Valid JSON:           " (verdict valid)
      ++ invalid_lines "Missing severity:     " (verdict missing_severity)
      ++ invalid_lines "Wrong type symptoms:  " (verdict wrong_type)
      ++ invalid_lines "Bad JSON:             " (verdict bad_json)
      ++ invalid_lines "Severity > 10:        " (verdict severity_high)
      ++ invalid_lines "Severity < 0:         " (verdict severity_neg))%string).
Proof.
  intros verdict. unfold TestValidate.main, initial_store, mem. cbv zeta.
  assert (H0 : List.length (map stack_garbage (seq 0 (N.to_nat BUF_SIZE)))
               = N.to_nat BUF_SIZE) by (now rewrite length_map, length_seq).
  destruct (expect_valid_step "Valid JSON:           " 0 _ "" (Nat.lt_0_succ 5) H0)
    as (e1 & H1 & ->).
  repeat match goal with
         | He : List.length ?e = N.to_nat BUF_SIZE
           |- context [expect_invalid _ ?l (literal ?i) (rodata ++ ?e, ?o)] =>
             let e' := fresh "e" in
             let He' := fresh "He" in
             let E := fresh "E" in
             destruct (expect_invalid_step l i e o ltac:(lia) He) as (e' & He' & E);
             rewrite E; clear E He
         end.
  cbn [snd nth literals]. fold verdict.
  rewrite ?string_append_assoc. reflexivity.
Qed.

End TestFacts.

(** Run on the cJSON parser, the program prints PASS on each of its six
    lines, with the diagnostic each failing case is about. *)
Example test_program_passes (stack_garbage : nat -> ascii) :
  TestValidate.main Parser.cJSON_Parse stack_garbage
  = (0,
     (test_line "Valid JSON:           " "1"
      ++ test_line "Missing severity:     " "0" ++ test_detail SeverityInvalid
      ++ test_line "Wrong type symptoms:  " "0" ++ test_detail SymptomsInvalid
      ++ test_line "Bad JSON:             " "0" ++ test_detail MalformedJson
      ++ test_line "Severity > 10:        " "0" ++ test_detail SeverityOutOfRange
      ++ test_line "Severity < 0:         " "0" ++ test_detail SeverityOutOfRange)%string).
Proof. vm_compute. reflexivity. Qed.

(** ** The wrapper and the verdicts, run *)

Ltac computed := vm_compute; first [reflexivity | lia | (let X := fresh in intros X; discriminate X)].

Lemma padded_input_is_read :
  exists tail,
    Cli.read_all_stdin plenty hashes padded_input
    = Some (Cli.ReadOk (padded_input ++ NUL :: tail) 3000)
    /\ N.of_nat (List.length (padded_input ++ NUL :: tail)) = 8192%N
    /\ load_cstring (padded_input ++ NUL :: tail) 0 = cstring padded_input.
Proof.
  apply (read_all_stdin_reads_everything plenty hashes padded_input 1).
  - computed.
  - computed.
  - intros i Hi. assert (i = 0%nat) as -> by lia. computed.
  - reflexivity.
Defined.

Lemma padded_input_needs_second_block :
  Cli.read_all_stdin first_block_only hashes padded_input = Some Cli.ReadNull
  <-> exists j, first_block_only j = false
                /\ forall i, (i < j)%nat ->
                     first_block_only i = true
                     /\ (capacity i < N.of_nat (List.length padded_input) + 2048)%N.
Proof.
  apply (read_all_stdin_null_iff first_block_only hashes padded_input).
  computed.
Defined.

Lemma wrapper_on_severity_high :
  Cli.main Parser.cJSON_Parse plenty hashes bangs (list_ascii_of_string severity_high)
  = Some (Cli.Exit 1 ("0" ++ Cli.LF) ("Severity must be between 0 and 10" ++ Cli.LF)).
Proof.
  etransitivity.
  - apply (main_reports_the_verdict Parser.cJSON_Parse plenty hashes bangs).
    + computed.
    + reflexivity.
  - vm_compute. reflexivity.
Defined.

Lemma wrapper_ignores_bytes_behind_NUL :
  Cli.main Parser.cJSON_Parse first_block_only hashes bangs
    (list_ascii_of_string valid ++ NUL :: list_ascii_of_string bad_json)
  = Cli.main Parser.cJSON_Parse first_block_only hashes bangs
      (list_ascii_of_string valid).
Proof.
  apply (main_stops_at_first_NUL Parser.cJSON_Parse first_block_only hashes bangs).
  - computed.
  - computed.
  - vm_compute. discriminate.
  - vm_compute. discriminate.
  - discriminate.
  - discriminate.
  - vm_compute. reflexivity.
Defined.

Lemma wrapper_without_second_block :
  Cli.main Parser.cJSON_Parse first_block_only hashes bangs padded_input
  = Some (Cli.Exit 2 "" ("Failed to read stdin" ++ Cli.LF)).
Proof.
  apply (main_gives_up_without_memory Parser.cJSON_Parse first_block_only
           hashes bangs padded_input 1).
  - computed.
  - reflexivity.
  - intros i Hi. assert (i = 0%nat) as -> by lia. computed.
Defined.

Lemma valid_run_had_the_schema :
  exists p root symptoms severity triggers,
    Some 0%nat = Some p
    /\ Parser.cJSON_Parse (load_cstring (test_mem valid) p) = Some root
    /\ cJSON_IsObject root = true
    /\ maps_to root "symptoms" symptoms /\ cJSON_IsArray symptoms = true
    /\ maps_to root "severity" severity /\ cJSON_IsNumber severity = true
    /\ maps_to root "potential_triggers" triggers /\ cJSON_IsArray triggers = true
    /\ (forall sign, valuedouble severity <> S754_infinity sign)
    /\ (is_double (valuedouble severity) ->
        is_finite (valuedouble severity) = true ->
        (0 <= B2Q (valuedouble severity) /\ B2Q (valuedouble severity) <= 10)%Q).
Proof.
  apply (success_means_schema_holds Parser.cJSON_Parse
           (test_mem valid) (Some 0%nat) (test_err valid) BUF_SIZE).
  vm_compute. reflexivity.
Defined.

Lemma reordered_members_same_verdict :
  exists v,
    run_test valid = report (test_mem valid) (test_err valid) BUF_SIZE v
    /\ run_test reordered = report (test_mem reordered) (test_err reordered) BUF_SIZE v.
Proof.
  unfold run_test.
  eapply (member_order_is_irrelevant Parser.cJSON_Parse).
  - vm_compute. reflexivity.
  - vm_compute. reflexivity.
  - reflexivity.
  - cbn [child].
    eapply perm_trans; [apply perm_swap|]. apply perm_skip. apply perm_swap.
  - cbn [child]. intros c [<-|[<-|[<-|[]]]]; discriminate.
  - cbn [child map string_].
    repeat constructor; cbn; intuition discriminate.
Defined.

Lemma appended_members_same_verdict :
  exists v,
    run_test severity_high
    = report (test_mem severity_high) (test_err severity_high) BUF_SIZE v
    /\ run_test appended = report (test_mem appended) (test_err appended) BUF_SIZE v.
Proof.
  unfold run_test.
  eapply (appended_members_are_ignored Parser.cJSON_Parse).
  - vm_compute. reflexivity.
  - vm_compute. reflexivity.
  - reflexivity.
  - cbn [child]. instantiate (1 := [_; _]). reflexivity.
  - intros name [<-|[<-|[<-|[]]]]; eexists; apply lookup_maps_to; vm_compute; reflexivity.
Defined.

Lemma other_contents_same_verdict :
  exists v,
    run_test valid = report (test_mem valid) (test_err valid) BUF_SIZE v
    /\ run_test other_contents
       = report (test_mem other_contents) (test_err other_contents) BUF_SIZE v.
Proof.
  unfold run_test.
  eapply (member_contents_are_not_inspected Parser.cJSON_Parse).
  - vm_compute. reflexivity.
  - vm_compute. reflexivity.
  - reflexivity.
  - cbn [child]. repeat constructor.
Defined.

(** The usage line of validate_cli.c: the text as [echo] sends it, with a
    line feed behind it. *)
Example wrapper_usage :
  Cli.main Parser.cJSON_Parse plenty hashes bangs
    (list_ascii_of_string
       (json_text "{'symptoms':[],'severity':5,'potential_triggers':[]}" ++ Cli.LF))
  = Some (Cli.Exit 0 ("1" ++ Cli.LF) "").
Proof. vm_compute. reflexivity. Qed.
